(** * Electron Fiddle: the version catalogue of [src/renderer/versions.ts]

    A shallow embedding of the module that keeps the known and the local
    Electron versions in [window.localStorage], picks the default version and
    names the release channel of a version, with the properties its
    specification states about it.

    The functions keep their names. A function that reads or writes the
    store takes the store and returns it; a function that may [throw]
    returns a [result]. The two functions that fetch the versions from the
    registry are asynchronous: they are modelled from the point where the
    promises they await are settled, the answer of the registry being an
    argument. *)

From Stdlib Require Import Bool List String Ascii ZArith Lia DecimalString.
Import ListNotations.
Open Scope string_scope.
Open Scope list_scope.

(** ** JavaScript values

    The module handles what [JSON.parse] returns, typed [any] in the source.
    [value] is the set of those values; [undefined], which no JSON text
    denotes and which only shows up when a property is read, is [None] of
    [option value]. The integers stand for the numbers: the module never
    computes with a number, it only tests one for truth and for identity.
    An object lists its own properties in their order. *)

#[warnings="-register-all"]
Inductive value : Type :=
| VNull
| VBool (b : bool)
| VNum (n : Z)
| VStr (s : string)
| VArr (items : list value)
| VObj (props : list (string * value)).

Definition undefined : option value := None.

(** What a [throw] carries. *)
Inductive exn : Type :=
| TypeError
| SyntaxError
| Error (message : string).

Inductive result (A : Type) : Type :=
| Ok (a : A)
| Throw (e : exn).

Arguments Ok {A} a.
Arguments Throw {A} e.

Definition bind {A B : Type} (r : result A) (k : A -> result B) : result B :=
  match r with
  | Ok a => k a
  | Throw e => Throw e
  end.

Notation "x <- c ;; k" := (bind c (fun x => k))
  (at level 61, c at next level, right associativity).

(** [!!x] *)
Definition truthy (x : value) : bool :=
  match x with
  | VNull => false
  | VBool b => b
  | VNum n => negb (n =? 0)%Z
  | VStr s => negb (s =? "")
  | VArr _ => true
  | VObj _ => true
  end.

Definition to_boolean (x : option value) : bool :=
  match x with
  | Some v => truthy v
  | None => false
  end.

(** [a === b]. Two objects, or two arrays, are identical when they are the
    same reference; every comparison of the module has on one side a value
    freshly parsed from the store, a string, an enum member or [undefined],
    so that no two references it compares are the same. *)
Definition strict_eq (a b : option value) : bool :=
  match a, b with
  | None, None => true
  | Some VNull, Some VNull => true
  | Some (VBool x), Some (VBool y) => Bool.eqb x y
  | Some (VNum x), Some (VNum y) => (x =? y)%Z
  | Some (VStr x), Some (VStr y) => (x =? y)
  | _, _ => false
  end.

Fixpoint assoc (p : string) (props : list (string * value)) : option value :=
  match props with
  | [] => None
  | (k, v) :: rest => if k =? p then Some v else assoc p rest
  end.

(** [x.p] on a value other than [null], for the property names the module
    reads ([version], [name], [localPath], [source], [tag_name], [url]):
    none of them is defined on the prototype of a string, a number, a boolean
    or an array. *)
Definition field (x : value) (p : string) : option value :=
  match x with
  | VObj props => assoc p props
  | _ => None
  end.

(** [x.p], which raises on [null]. *)
Definition get (x : value) (p : string) : result (option value) :=
  match x with
  | VNull => Throw TypeError
  | _ => Ok (field x p)
  end.

(** [x.p] where [x] may be [undefined], on which it raises too. *)
Definition member (x : option value) (p : string) : result (option value) :=
  match x with
  | Some v => get v p
  | None => Throw TypeError
  end.

(** [{ ...o, p: v }] on the properties of [o]: an existing property keeps its
    place and takes the new value, a new one goes last. *)
Fixpoint set_prop (p : string) (v : value) (props : list (string * value))
  : list (string * value) :=
  match props with
  | [] => [(p, v)]
  | (k, w) :: rest =>
      if k =? p then (k, v) :: rest else (k, w) :: set_prop p v rest
  end.

Definition index_key (i : nat) : string :=
  NilEmpty.string_of_uint (Nat.to_uint i).

Fixpoint indexed {A : Type} (f : A -> value) (i : nat) (l : list A)
  : list (string * value) :=
  match l with
  | [] => []
  | x :: rest => (index_key i, f x) :: indexed f (S i) rest
  end.

(** The own enumerable properties that [{ ...x }] copies: those of an object,
    the indexed elements of an array and the indexed characters of a string;
    [null], a boolean and a number have none. *)
Definition own_props (x : value) : list (string * value) :=
  match x with
  | VObj props => props
  | VArr items => indexed (fun v => v) 0 items
  | VStr s => indexed (fun c => VStr (String c "")) 0 (list_ascii_of_string s)
  | _ => []
  end.

(** ** Array methods with a callback that may throw *)

Section ArrayMethods.

Variable callback : value -> result bool.

(** [Array.prototype.find]: the first element the callback accepts. *)
Fixpoint find (l : list value) : result (option value) :=
  match l with
  | [] => Ok undefined
  | x :: rest =>
      b <- callback x ;;
      if b then Ok (Some x) else find rest
  end.

(** [Array.prototype.every], which stops at the first refusal. *)
Fixpoint every (l : list value) : result bool :=
  match l with
  | [] => Ok true
  | x :: rest =>
      b <- callback x ;;
      if b then every rest else Ok false
  end.

(** [Array.prototype.filter] *)
Fixpoint filter_cb (l : list value) : result (list value) :=
  match l with
  | [] => Ok []
  | x :: rest =>
      b <- callback x ;;
      kept <- filter_cb rest ;;
      Ok (if b then x :: kept else kept)
  end.

End ArrayMethods.

(** ** Strings *)

Fixpoint starts_with (needle s : string) : bool :=
  match needle, s with
  | EmptyString, _ => true
  | String a needle', String b s' => Ascii.eqb a b && starts_with needle' s'
  | String _ _, EmptyString => false
  end.

(** [s.includes(needle)] on a string. *)
Fixpoint includes (needle s : string) : bool :=
  starts_with needle s
  || match s with
     | EmptyString => false
     | String _ s' => includes needle s'
     end.

(** [needle] occurs in [s]. *)
Definition contains (s needle : string) : Prop :=
  exists before after, s = (before ++ needle ++ after)%string.

(** ** The store

    [window.localStorage] keeps one string per key, and the module uses three
    keys. The remembered selection, under ['version'], is read as it is. The
    two collections are only ever read through [JSON.parse] and written
    through [JSON.stringify], so the model keeps of their strings what the
    parser makes of them: the empty string, a string the parser rejects, or a
    JSON text and the value it denotes. *)

Inductive text : Type :=
| Empty
| Malformed
| Json (v : value).

(** [JSON.parse] *)
Definition JSON_parse (t : text) : result value :=
  match t with
  | Json v => Ok v
  | _ => Throw SyntaxError
  end.

(** [JSON.stringify], on a value that [JSON.parse] reads back. *)
Definition JSON_stringify (v : value) : text := Json v.

(** A string in a condition: the empty one is false. *)
Definition nonempty (t : text) : bool :=
  match t with
  | Empty => false
  | _ => true
  end.

Module VersionKeys.
Inductive t : Type :=
| local   (* 'local-electron-versions' *)
| known.  (* 'known-electron-versions' *)
End VersionKeys.

Record Storage : Type := mkStorage {
  version_item : option string;   (* 'version' *)
  local_item : option text;       (* 'local-electron-versions' *)
  known_item : option text        (* 'known-electron-versions' *)
}.

Definition getItem (key : VersionKeys.t) (ls : Storage) : option text :=
  match key with
  | VersionKeys.local => local_item ls
  | VersionKeys.known => known_item ls
  end.

Definition setItem (key : VersionKeys.t) (t : text) (ls : Storage) : Storage :=
  match key with
  | VersionKeys.local => mkStorage (version_item ls) (Some t) (known_item ls)
  | VersionKeys.known => mkStorage (version_item ls) (local_item ls) (Some t)
  end.

(** ** The enums *)

Inductive ElectronReleaseChannel : Type :=
| stable
| beta
| nightly
| unsupported.

(** Modelled from the spec: the enum [ElectronVersionSource] of
    [../interfaces], which is not among the sources; its members are the
    provenance tags [remote] and [local]. *)
Module ElectronVersionSource.
Definition remote : value := VStr "remote".
Definition local : value := VStr "local".
End ElectronVersionSource.

(** Modelled from the spec: the enum [ElectronVersionState] of
    [../interfaces], which is not among the sources; the module uses its
    members [unknown] and [ready]. *)
Module ElectronVersionState.
Definition unknown : value := VStr "unknown".
Definition ready : value := VStr "ready".
End ElectronVersionState.

(** ** The module *)

(** [getReleaseChannel] reads [tag.includes(...)]: the method of a string or
    of an array; any other tag has none and the call raises. *)
Definition tag_includes (tag : value) (needle : string) : result bool :=
  match tag with
  | VStr s => Ok (includes needle s)
  | VArr items =>
      Ok (existsb (fun x => strict_eq (Some x) (Some (VStr needle))) items)
  | _ => Throw TypeError
  end.

Definition getReleaseChannel (input : value) : result ElectronReleaseChannel :=
  version <- get input "version" ;;
  let tag := if to_boolean version
             then match version with Some v => v | None => VStr "" end
             else VStr "" in
  b <- tag_includes tag "beta" ;;
  if b then Ok beta else
  n <- tag_includes tag "nightly" ;;
  if n then Ok nightly else
  u <- tag_includes tag "unsupported" ;;
  if u then Ok unsupported else
  Ok stable.

Definition isExpectedFormat (input : list value) : result bool :=
  every (fun entry => version <- get entry "version" ;; Ok (to_boolean version))
        input.

(** The callback of [migrateVersions]; it runs on the items the first filter
    kept, none of which is [null]. *)
Definition migrate_item (item : value) : value :=
  let tag_name := field item "tag_name" in
  let name := field item "name" in
  let url := field item "url" in
  if negb (to_boolean tag_name) || negb (to_boolean name)
     || negb (to_boolean url)
  then VNull
  else
    match tag_name, name, url with
    | Some tag_name, Some name, Some url =>
        VObj [("version", tag_name); ("name", name); ("localPath", url)]
    | _, _, _ => VNull
    end.

(** [input] is the empty list when the caller passes none. *)
Definition migrateVersions (input : list value) : list value :=
  filter truthy (map migrate_item (filter truthy input)).

Definition isElectronVersion (input : value) : result bool :=
  source <- get input "source" ;;
  Ok (negb (strict_eq source undefined)).

Definition saveVersions (key : VersionKeys.t) (versions : list value)
  (ls : Storage) : Storage :=
  let stringified := JSON_stringify (VArr versions) in
  setItem key stringified ls.

Definition saveLocalVersions (versions : list value) (ls : Storage)
  : result Storage :=
  filteredVersions <-
    filter_cb (fun v =>
      tagged <- isElectronVersion v ;;
      if tagged then
        source <- get v "source" ;;
        Ok (strict_eq source (Some ElectronVersionSource.local))
      else Ok true) versions ;;
  Ok (saveVersions VersionKeys.local filteredVersions ls).

Definition saveKnownVersions (versions : list value) (ls : Storage) : Storage :=
  saveVersions VersionKeys.known versions ls.

(** The [try] block of [getVersions]: the parsed list and the store after it,
    or what was thrown. [result.every] exists on an array only. *)
Definition getVersions_try (key : VersionKeys.t) (fromLs : text) (ls : Storage)
  : result (list value * Storage) :=
  parsed <- JSON_parse fromLs ;;
  match parsed with
  | VArr result =>
      expected <- isExpectedFormat result ;;
      if negb expected then
        match key with
        | VersionKeys.known =>
            Throw (Error "Electron versions in LS does not match expected format")
        | VersionKeys.local =>
            let result := migrateVersions result in
            ls' <- saveLocalVersions result ls ;;
            Ok (result, ls')
        end
      else Ok (result, ls)
  | _ => Throw TypeError
  end.

Definition getVersions (key : VersionKeys.t) (fallbackMethod : unit -> list value)
  (ls : Storage) : list value * Storage :=
  match getItem key ls with
  | Some fromLs =>
      if nonempty fromLs then
        match getVersions_try key fromLs ls with
        | Ok r => r
        | Throw _ => (fallbackMethod tt, ls)
        end
      else (fallbackMethod tt, ls)
  | None => (fallbackMethod tt, ls)
  end.

Definition getLocalVersions (ls : Storage) : list value * Storage :=
  getVersions VersionKeys.local (fun _ => []) ls.

(** [Object.keys(x)]: the names of the own enumerable properties of [x], in
    their order; it raises on [null] and on [undefined]. *)
Definition Object_keys (x : option value) : result (list string) :=
  match x with
  | None => Throw TypeError
  | Some VNull => Throw TypeError
  | Some v => Ok (map fst (own_props v))
  end.

(** [fetchVersions], from the point where [window.fetch] and
    [response.json()] are settled: [response] is the body parsed as JSON, or
    what one of the two promises was rejected with. No [await] stands
    between reading the body and writing the store. The result is what the
    promise of [fetchVersions] is settled with, and the store it leaves.
    [versions], like the names [field] is for, is defined on no prototype. *)
Definition fetchVersions (response : result value) (ls : Storage)
  : result (list value) * Storage :=
  match (data <- response ;;
         versions <- get data "versions" ;;
         Object_keys versions) with
  | Throw e => (Throw e, ls)
  | Ok keys =>
      let output := map (fun version => VObj [("version", VStr version)]) keys in
      match (if (0 <? List.length output)%nat
             then isExpectedFormat output else Ok false) with
      | Throw e => (Throw e, ls)
      | Ok true => (Ok output, saveKnownVersions output ls)
      | Ok false => (Ok output, ls)
      end
  end.

Section Versions.

(** The list of [static/releases.json], which is not among the sources. *)
Variable releases : list value.

(** [normalizeVersion] of [../utils/normalize-version], which is not among the
    sources: a canonical form of the string, or [null]. *)
Variable normalizeVersion : string -> option string.

Definition getKnownVersions (ls : Storage) : list value * Storage :=
  getVersions VersionKeys.known (fun _ => releases) ls.

(** [{ ...version, source, state }] *)
Definition tagged (source state : value) (version : value) : value :=
  VObj (set_prop "state" state (set_prop "source" source (own_props version))).

Definition getElectronVersions (ls : Storage) : list value * Storage :=
  let (knownVersions, ls1) := getKnownVersions ls in
  let known :=
    map (tagged ElectronVersionSource.remote ElectronVersionState.unknown)
        knownVersions in
  let (localVersions, ls2) := getLocalVersions ls1 in
  let local :=
    map (tagged ElectronVersionSource.local ElectronVersionState.ready)
        localVersions in
  (known ++ local, ls2).

(** [getUpdatedElectronVersions], from the same point as [fetchVersions]:
    whatever the fetch came to, the [catch] only logs, and the versions are
    read from the store the fetch left. *)
Definition getUpdatedElectronVersions (response : result value)
  (ls : Storage) : list value * Storage :=
  let (_, ls1) := fetchVersions response ls in
  getElectronVersions ls1.

(** [(v) => v.localPath === input.localPath] *)
Definition same_localPath (input v : value) : result bool :=
  mine <- get v "localPath" ;;
  theirs <- get input "localPath" ;;
  Ok (strict_eq mine theirs).

(** The list returned or the exception raised, and the store left behind. *)
Definition addLocalVersion (input : value) (ls : Storage)
  : result (list value) * Storage :=
  let (versions, ls1) := getLocalVersions ls in
  match find (same_localPath input) versions with
  | Throw e => (Throw e, ls1)
  | Ok found =>
      let versions :=
        if negb (to_boolean found) then versions ++ [input] else versions in
      match saveLocalVersions versions ls1 with
      | Throw e => (Throw e, ls1)
      | Ok ls2 => (Ok versions, ls2)
      end
  end.

(** [!!knownVersions.find(({ version }) => version === wanted)] *)
Definition listed (wanted : string) (knownVersions : list value) : result bool :=
  found <- find (fun entry =>
                   version <- get entry "version" ;;
                   Ok (strict_eq version (Some (VStr wanted))))
                knownVersions ;;
  Ok (to_boolean found).

(** [s && k(s)] as a condition: a missing or empty string is false. *)
Definition when_set (s : option string) (k : string -> result bool)
  : result bool :=
  match s with
  | Some chars => if chars =? "" then Ok false else k chars
  | None => Ok false
  end.

(** [!!ls] *)
Definition is_set (s : option string) : bool :=
  match s with
  | Some chars => negb (chars =? "")
  | None => false
  end.

Definition corrupted : exn := Error "Corrupted version data".

(** [knownVersions] is the empty list when the caller passes none. The
    result is a string where the records are well typed; it is whatever the
    first record holds as [version] otherwise. *)
Definition getDefaultVersion (knownVersions : list value) (store : Storage)
  : result (option value) :=
  let ls := version_item store in
  hit <- when_set ls (fun s => listed s knownVersions) ;;
  if hit then Ok (option_map VStr ls) else
  let normalized :=
    match ls with
    | Some s => if s =? "" then ls else normalizeVersion s
    | None => ls
    end in
  healed <- when_set normalized (fun n => listed n knownVersions) ;;
  if healed then Ok (option_map VStr normalized) else
  let first := nth_error knownVersions 0 in
  if is_set ls && to_boolean first then member first "version" else
  usable <- (if to_boolean first
             then version <- member first "version" ;; Ok (to_boolean version)
             else Ok false) ;;
  if usable then member first "version" else
  Throw corrupted.

End Versions.

(** ** Data to run the module on *)

(** A normalizer to run [getDefaultVersion] with: it drops a leading [v]. *)
Definition strip_v (s : string) : option string :=
  match s with
  | String "v" rest => Some rest
  | _ => Some s
  end.

Definition version_record (version : string) : value :=
  VObj [("version", VStr version)].

Definition local_record (version localPath : string) : value :=
  VObj [("version", VStr version); ("localPath", VStr localPath)].

Definition legacy_record (tag_name name url : string) : value :=
  VObj [("tag_name", VStr tag_name); ("name", VStr name); ("url", VStr url)].

Definition empty_store : Storage := mkStorage None None None.

Definition store_of (known local : list value) : Storage :=
  mkStorage None (Some (Json (VArr local))) (Some (Json (VArr known))).

(** ** The specification's wording, to compare the code with *)

(** The migration as the specification words it: an entry is dropped when
    one of [tag_name], [name], [url] is missing, and mapped otherwise. *)
Definition migrate_as_specified (input : list value) : list value :=
  flat_map (fun entry =>
    match field entry "tag_name", field entry "name", field entry "url" with
    | Some tag_name, Some name, Some url =>
        [VObj [("version", tag_name); ("name", name); ("localPath", url)]]
    | _, _, _ => []
    end) input.

(** The provenance tag of a record, if it carries one. *)
Definition provenance (record : value) : option value := field record "source".

(** A record that the local collection may hold: its provenance tag is
    [local], or it carries none. *)
Definition persistable (record : value) : bool :=
  match provenance record with
  | None => true
  | Some tag => strict_eq (Some tag) (Some ElectronVersionSource.local)
  end.

(** The invariant of a validated collection: the record has a [version] that
    is not empty. *)
Definition has_version (record : value) : bool :=
  to_boolean (field record "version").

(** Two records share their [localPath] when the two are identical for
    [===]; two records without one share [undefined]. *)
Definition shares_localPath (input v : value) : bool :=
  strict_eq (field v "localPath") (field input "localPath").

(** Some record of the list has exactly this string as its [version]. *)
Definition has_record (knownVersions : list value) (wanted : string) : Prop :=
  exists record,
    In record knownVersions /\ field record "version" = Some (VStr wanted).

(** [has_record], decided. *)
Definition matches (knownVersions : list value) (wanted : string) : bool :=
  existsb (fun v => strict_eq (field v "version") (Some (VStr wanted)))
          knownVersions.

(** The [version] of the first record, or the error when there is none. *)
Definition first_or_corrupted (knownVersions : list value)
  : result (option value) :=
  match knownVersions with
  | first :: _ => Ok (field first "version")
  | [] => Throw corrupted
  end.

(** * Properties *)

(** ** Strings and values *)

Lemma starts_with_spec (needle s : string) :
  starts_with needle s = true <-> exists after, s = (needle ++ after)%string.
Proof.
  revert s; induction needle as [|a needle IH]; intros s; simpl.
  - split; [intros _; exists s; reflexivity | reflexivity].
  - destruct s as [|b s].
    + split; [discriminate | intros [after E]; discriminate].
    + rewrite andb_true_iff, Ascii.eqb_eq, IH. split.
      * intros [-> [after ->]]. exists after. reflexivity.
      * intros [after E]. injection E as -> ->. split; [reflexivity|].
        exists after. reflexivity.
Qed.

Lemma includes_spec (needle s : string) :
  includes needle s = true <-> contains s needle.
Proof.
  unfold contains. induction s as [|c s IH].
  - simpl. rewrite orb_false_r, starts_with_spec. split.
    + intros [after E]. exists "", after. exact E.
    + intros [before [after E]]. destruct before; [|discriminate].
      exists after. exact E.
  - change (includes needle (String c s))
      with (starts_with needle (String c s) || includes needle s).
    rewrite orb_true_iff, starts_with_spec, IH. split.
    + intros [[after E] | [before [after E]]].
      * exists "", after. exact E.
      * exists (String c before), after. rewrite E. reflexivity.
    + intros [before [after E]]. destruct before as [|c' before].
      * left. exists after. exact E.
      * right. injection E as _ E. exists before, after. exact E.
Qed.

Lemma includes_false (needle s : string) :
  includes needle s = false <-> ~ contains s needle.
Proof.
  rewrite <- includes_spec. destruct (includes needle s); split; intros H;
    try reflexivity; try discriminate; try (intros E; discriminate).
  exfalso. apply H. reflexivity.
Qed.

Lemma get_not_null (x : value) (p : string) :
  x <> VNull -> get x p = Ok (field x p).
Proof.
  destruct x; intros H; try reflexivity. contradiction H; reflexivity.
Qed.

Lemma truthy_not_null (x : value) : truthy x = true -> x <> VNull.
Proof.
  intros H ->. discriminate H.
Qed.

(** A property of truthy value is read on an object. *)
Lemma field_truthy_object (x : value) (p : string) :
  to_boolean (field x p) = true -> exists props, x = VObj props.
Proof.
  destruct x; simpl; try discriminate. intros _. eexists; reflexivity.
Qed.

(** ** The release channel *)

(** C9. For a record whose version tag is a string, [getReleaseChannel]
    answers Beta when the tag contains "beta"; otherwise Nightly when it
    contains "nightly"; otherwise Unsupported when it contains "unsupported";
    otherwise Stable. The first marker in that order wins. *)
Theorem getReleaseChannel_first_marker_wins
  (record : list (string * value)) (tag : string) :
  assoc "version" record = Some (VStr tag) ->
  (contains tag "beta" -> getReleaseChannel (VObj record) = Ok beta)
  /\ (~ contains tag "beta" -> contains tag "nightly" ->
      getReleaseChannel (VObj record) = Ok nightly)
  /\ (~ contains tag "beta" -> ~ contains tag "nightly" ->
      contains tag "unsupported" ->
      getReleaseChannel (VObj record) = Ok unsupported)
  /\ (~ contains tag "beta" -> ~ contains tag "nightly" ->
      ~ contains tag "unsupported" ->
      getReleaseChannel (VObj record) = Ok stable).
Proof.
  intros Hversion.
  assert (E : getReleaseChannel (VObj record) =
              Ok (if includes "beta" tag then beta
                  else if includes "nightly" tag then nightly
                  else if includes "unsupported" tag then unsupported
                  else stable)).
  { unfold getReleaseChannel. simpl get. rewrite Hversion.
    cbn [bind to_boolean truthy].
    destruct (String.eqb_spec tag "") as [-> | _].
    - reflexivity.
    - cbn [negb tag_includes bind].
      destruct (includes "beta" tag); [reflexivity|].
      destruct (includes "nightly" tag); [reflexivity|].
      destruct (includes "unsupported" tag); reflexivity. }
  rewrite E. repeat split.
  - intros B. apply includes_spec in B. rewrite B. reflexivity.
  - intros B N. apply includes_false in B. apply includes_spec in N.
    rewrite B, N. reflexivity.
  - intros B N U. apply includes_false in B, N. apply includes_spec in U.
    rewrite B, N, U. reflexivity.
  - intros B N U. apply includes_false in B, N, U.
    rewrite B, N, U. reflexivity.
Qed.

(** A tag with two markers: "beta" comes first in the order of the tests. *)
Lemma getReleaseChannel_first_marker_wins_witness :
  getReleaseChannel (version_record "10.0.0-nightly.beta.1") = Ok beta.
Proof.
  apply (proj1 (getReleaseChannel_first_marker_wins
                  [("version", VStr "10.0.0-nightly.beta.1")]
                  "10.0.0-nightly.beta.1" eq_refl)).
  exists "10.0.0-nightly.", ".1". reflexivity.
Defined.

(** ** The legacy migration *)

Lemma migrateVersions_cons (entry : value) (rest : list value) :
  migrateVersions (entry :: rest) =
    (if truthy entry && truthy (migrate_item entry)
     then [migrate_item entry] else []) ++ migrateVersions rest.
Proof.
  unfold migrateVersions. simpl filter at 2.
  destruct (truthy entry); simpl; [|reflexivity].
  destruct (truthy (migrate_item entry)); reflexivity.
Qed.

(** C8, as stated, fails: an entry that has the three properties, one of
    them the empty string, is dropped and not mapped. *)
Lemma migrateVersions_drops_empty_tag_name :
  migrateVersions [legacy_record "" "One" "/a"]
  <> migrate_as_specified [legacy_record "" "One" "/a"].
Proof.
  vm_compute. discriminate.
Qed.

(** C8, amended. [migrateVersions] goes through the entries in order. An
    entry whose [tag_name], [name] and [url] are all truthy becomes
    [{version: tag_name, name, localPath: url}]; an entry for which one of
    them is missing or falsy (the empty string, [null], [false], [0]) is
    dropped. So [migrate([{tag_name:"v1.0.0", name:"One", url:"/a"}, {},
    {tag_name:"v2.0.0"}])] is [[{version:"v1.0.0", name:"One",
    localPath:"/a"}]]. *)
Theorem migrateVersions_keeps_truthy_entries :
  migrateVersions [] = []
  /\ (forall entry rest tag_name name url,
        field entry "tag_name" = Some tag_name ->
        field entry "name" = Some name ->
        field entry "url" = Some url ->
        truthy tag_name = true -> truthy name = true -> truthy url = true ->
        migrateVersions (entry :: rest) =
          VObj [("version", tag_name); ("name", name); ("localPath", url)]
          :: migrateVersions rest)
  /\ (forall entry rest,
        to_boolean (field entry "tag_name") = false
        \/ to_boolean (field entry "name") = false
        \/ to_boolean (field entry "url") = false ->
        migrateVersions (entry :: rest) = migrateVersions rest)
  /\ migrateVersions [legacy_record "v1.0.0" "One" "/a"; VObj [];
                      VObj [("tag_name", VStr "v2.0.0")]]
     = [VObj [("version", VStr "v1.0.0"); ("name", VStr "One");
              ("localPath", VStr "/a")]].
Proof.
  split; [reflexivity|]. split; [|split; [|reflexivity]].
  - intros entry rest tag_name name url Ht Hn Hu Tt Tn Tu.
    rewrite migrateVersions_cons.
    assert (Hobj : truthy entry = true).
    { destruct (@field_truthy_object entry "tag_name") as [props ->];
        [rewrite Ht; exact Tt | reflexivity]. }
    unfold migrate_item. rewrite Ht, Hn, Hu, Hobj. simpl to_boolean.
    rewrite Tt, Tn, Tu. reflexivity.
  - intros entry rest H. rewrite migrateVersions_cons.
    assert (E : migrate_item entry = VNull).
    { unfold migrate_item.
      destruct H as [H | [H | H]]; rewrite H; simpl;
        rewrite ?orb_true_r; reflexivity. }
    rewrite E. rewrite andb_false_r. reflexivity.
Qed.

Lemma migrateVersions_keeps_truthy_entries_witness :
  migrateVersions [legacy_record "v1.0.0" "One" "/a";
                   legacy_record "" "Two" "/b"]
  = [VObj [("version", VStr "v1.0.0"); ("name", VStr "One");
           ("localPath", VStr "/a")]].
Proof.
  destruct migrateVersions_keeps_truthy_entries as [_ [Hkeep [Hdrop _]]].
  rewrite (Hkeep (legacy_record "v1.0.0" "One" "/a") _
                 (VStr "v1.0.0") (VStr "One") (VStr "/a")
                 eq_refl eq_refl eq_refl eq_refl eq_refl eq_refl).
  rewrite (Hdrop (legacy_record "" "Two" "/b") [] (or_introl eq_refl)).
  reflexivity.
Defined.

(** ** The persistence layer *)

Lemma filter_cb_total (callback : value -> result bool) (f : value -> bool)
  (l : list value) :
  (forall x, In x l -> callback x = Ok (f x)) ->
  filter_cb callback l = Ok (filter f l).
Proof.
  induction l as [|x l IH]; intros H; simpl; [reflexivity|].
  rewrite (H x (or_introl eq_refl)). simpl.
  rewrite IH by (intros y Hy; apply H; right; exact Hy). simpl.
  destruct (f x); reflexivity.
Qed.

Lemma saveLocalVersions_filters (versions : list value) (ls : Storage) :
  ~ In VNull versions ->
  saveLocalVersions versions ls =
    Ok (saveVersions VersionKeys.local (filter persistable versions) ls).
Proof.
  intros Hnull. unfold saveLocalVersions.
  rewrite (@filter_cb_total _ persistable); [reflexivity|].
  intros x Hx.
  assert (Hx' : x <> VNull) by (intros ->; exact (Hnull Hx)).
  unfold isElectronVersion, persistable, provenance.
  rewrite (get_not_null x "source" Hx'). simpl.
  destruct (field x "source") as [[]|]; reflexivity.
Qed.

Lemma filter_all {A : Type} (f : A -> bool) (l : list A) :
  Forall (fun x => f x = true) l -> filter f l = l.
Proof.
  induction 1 as [|x l Hx _ IH]; simpl; [reflexivity|].
  rewrite Hx, IH. reflexivity.
Qed.

Lemma has_version_not_null (l : list value) :
  Forall (fun v => has_version v = true) l -> ~ In VNull l.
Proof.
  intros H Hin. rewrite Forall_forall in H. specialize (H _ Hin).
  discriminate H.
Qed.

Lemma isExpectedFormat_true (l : list value) :
  isExpectedFormat l = Ok true <-> Forall (fun v => has_version v = true) l.
Proof.
  unfold isExpectedFormat. induction l as [|x l IH]; simpl.
  - split; [constructor | reflexivity].
  - split.
    + intros H. destruct x; simpl in H; try discriminate H.
      unfold has_version. fold (has_version (VObj props)).
      destruct (has_version (VObj props)) eqn:E;
        unfold has_version in E; simpl in E; rewrite E in H;
        [|discriminate H].
      constructor; [exact E | apply IH; exact H].
    + intros H. inversion H as [|? ? Hx Hl]; subst.
      destruct (@field_truthy_object x "version" Hx) as [props ->].
      unfold has_version in Hx. simpl in Hx |- *. rewrite Hx.
      apply IH. exact Hl.
Qed.

(** What migration produces is a list of valid records without a tag. *)
Lemma migrateVersions_valid (input : list value) :
  Forall (fun v => has_version v = true /\ provenance v = None)
         (migrateVersions input).
Proof.
  induction input as [|entry rest IH]; [constructor|].
  rewrite migrateVersions_cons.
  destruct (truthy entry && truthy (migrate_item entry)) eqn:E;
    [|exact IH].
  apply andb_true_iff in E. destruct E as [_ E].
  simpl. constructor; [|exact IH].
  unfold migrate_item in E |- *.
  destruct (to_boolean (field entry "tag_name")) eqn:Tt; [|discriminate E].
  destruct (to_boolean (field entry "name")) eqn:Tn; [|discriminate E].
  destruct (to_boolean (field entry "url")) eqn:Tu; [|discriminate E].
  simpl in E |- *.
  destruct (field entry "tag_name") as [t|]; [|discriminate Tt].
  destruct (field entry "name") as [n|]; [|discriminate Tn].
  destruct (field entry "url") as [u|]; [|discriminate Tu].
  split; [exact Tt | reflexivity].
Qed.

Lemma untagged_persistable (l : list value) :
  Forall (fun v => has_version v = true /\ provenance v = None) l ->
  Forall (fun v => persistable v = true) l.
Proof.
  apply Forall_impl. intros v [_ H]. unfold persistable. rewrite H.
  reflexivity.
Qed.

Lemma saveLocalVersions_migrated (input : list value) (ls : Storage) :
  saveLocalVersions (migrateVersions input) ls =
    Ok (saveVersions VersionKeys.local (migrateVersions input) ls).
Proof.
  pose proof (migrateVersions_valid input) as H.
  rewrite saveLocalVersions_filters.
  - rewrite filter_all; [reflexivity | apply untagged_persistable; exact H].
  - apply has_version_not_null. revert H. apply Forall_impl.
    intros v [Hv _]. exact Hv.
Qed.

(** Reading a collection that passes the validator returns it as it is. *)
Lemma getVersions_valid (key : VersionKeys.t) (fallback : unit -> list value)
  (stored : list value) (ls : Storage) :
  getItem key ls = Some (Json (VArr stored)) ->
  Forall (fun v => has_version v = true) stored ->
  getVersions key fallback ls = (stored, ls).
Proof.
  intros Hitem Hvalid. unfold getVersions, getVersions_try.
  rewrite Hitem. simpl.
  apply isExpectedFormat_true in Hvalid. rewrite Hvalid. reflexivity.
Qed.

(** C7. [saveLocalVersions] writes under the local key exactly those of the
    given records whose provenance tag is [local] or which carry no tag, in
    their order; a record tagged [remote] is left out of what is written. *)
Theorem saveLocalVersions_persists_local_and_untagged
  (versions : list value) (ls : Storage) :
  ~ In VNull versions ->
  exists persisted,
    saveLocalVersions versions ls =
      Ok (setItem VersionKeys.local (JSON_stringify (VArr persisted)) ls)
    /\ persisted = filter persistable versions
    /\ (forall record,
          In record persisted <->
          In record versions
          /\ (provenance record = None
              \/ provenance record = Some ElectronVersionSource.local))
    /\ (forall record,
          provenance record = Some ElectronVersionSource.remote ->
          ~ In record persisted).
Proof.
  intros Hnull. exists (filter persistable versions).
  assert (Hp : forall record,
             persistable record = true <->
             provenance record = None
             \/ provenance record = Some ElectronVersionSource.local).
  { intros record. unfold persistable.
    destruct (provenance record) as [tag|].
    - split.
      + intros H. right. f_equal.
        destruct tag; simpl in H; try discriminate H.
        apply String.eqb_eq in H. subst. reflexivity.
      + intros [H | H]; [discriminate H|]. injection H as ->. reflexivity.
    - split; [left; reflexivity | reflexivity]. }
  split; [apply saveLocalVersions_filters; exact Hnull|].
  split; [reflexivity|]. split.
  - intros record. rewrite filter_In, Hp. reflexivity.
  - intros record Hremote Hin. apply filter_In in Hin.
    destruct Hin as [_ Hin]. apply Hp in Hin. rewrite Hremote in Hin.
    destruct Hin as [H | H]; discriminate H.
Qed.

Lemma saveLocalVersions_persists_local_and_untagged_witness :
  exists persisted,
    saveLocalVersions
      [VObj [("version", VStr "1.0.0"); ("source", VStr "remote")];
       local_record "2.0.0" "/x";
       VObj [("version", VStr "3.0.0"); ("source", VStr "local")]]
      empty_store
    = Ok (setItem VersionKeys.local (JSON_stringify (VArr persisted))
                  empty_store)
    /\ persisted =
         [local_record "2.0.0" "/x";
          VObj [("version", VStr "3.0.0"); ("source", VStr "local")]].
Proof.
  destruct (@saveLocalVersions_persists_local_and_untagged
              [VObj [("version", VStr "1.0.0"); ("source", VStr "remote")];
               local_record "2.0.0" "/x";
               VObj [("version", VStr "3.0.0"); ("source", VStr "local")]]
              empty_store)
    as [persisted [Hsave [Hfilter _]]].
  - simpl. intros [H | [H | [H | H]]]; try discriminate H. exact H.
  - exists persisted. split; [exact Hsave | exact Hfilter].
Defined.

(** C3. Saving what [migrateVersions] made of any list under the local key
    and then reading the local collection gives back that migrated list, and
    the read leaves the store as the save left it. *)
Theorem migrated_list_round_trip (legacyList : list value) (ls : Storage) :
  exists saved,
    saveLocalVersions (migrateVersions legacyList) ls = Ok saved
    /\ local_item saved =
         Some (JSON_stringify (VArr (migrateVersions legacyList)))
    /\ getLocalVersions saved = (migrateVersions legacyList, saved).
Proof.
  exists (saveVersions VersionKeys.local (migrateVersions legacyList) ls).
  split; [apply saveLocalVersions_migrated|]. split; [reflexivity|].
  apply getVersions_valid; [reflexivity|].
  pose proof (migrateVersions_valid legacyList) as H. revert H.
  apply Forall_impl. intros v [Hv _]. exact Hv.
Qed.

(** Reading under the known key leaves the store as it is. *)
Lemma getVersions_known_keeps_store (fallback : unit -> list value)
  (ls : Storage) :
  snd (getVersions VersionKeys.known fallback ls) = ls.
Proof.
  unfold getVersions, getVersions_try. simpl.
  destruct (known_item ls) as [[| |[]]|]; simpl; try reflexivity.
  destruct (isExpectedFormat items) as [[]|]; reflexivity.
Qed.

(** What the read of the local collection returns are valid records, and
    the read touches no item but the local one. *)
Lemma getLocalVersions_valid (ls : Storage) :
  Forall (fun v => has_version v = true) (fst (getLocalVersions ls))
  /\ forall t, setItem VersionKeys.local t (snd (getLocalVersions ls))
               = setItem VersionKeys.local t ls.
Proof.
  unfold getLocalVersions, getVersions, getVersions_try. simpl.
  destruct (local_item ls) as [[| |[]]|]; simpl;
    try (split; [constructor | reflexivity]).
  destruct (isExpectedFormat items) as [[]|] eqn:E; simpl.
  - split; [apply isExpectedFormat_true; exact E | reflexivity].
  - rewrite saveLocalVersions_migrated. simpl. split; [|reflexivity].
    pose proof (migrateVersions_valid items) as H. revert H.
    apply Forall_impl. intros v [Hv _]. exact Hv.
  - split; [constructor | reflexivity].
Qed.

(** C2. A stored collection that parses to a list on which the validator
    answers false is read differently under the two keys. Under the known key
    the read returns the bundled list and leaves the store alone: nothing is
    migrated. Under the local key the read returns the migrated list, after
    writing it under the local key. *)
Theorem getVersions_invalid_format_by_key
  (releases result : list value) (ls : Storage) :
  isExpectedFormat result = Ok false ->
  (known_item ls = Some (Json (VArr result)) ->
   getKnownVersions releases ls = (releases, ls))
  /\ (local_item ls = Some (Json (VArr result)) ->
      getLocalVersions ls =
        (migrateVersions result,
         setItem VersionKeys.local
                 (JSON_stringify (VArr (migrateVersions result))) ls)).
Proof.
  intros Hinvalid. split; intros Hitem.
  - unfold getKnownVersions, getVersions, getVersions_try. simpl.
    rewrite Hitem. simpl. rewrite Hinvalid. reflexivity.
  - unfold getLocalVersions, getVersions, getVersions_try. simpl.
    rewrite Hitem. simpl. rewrite Hinvalid. simpl.
    rewrite saveLocalVersions_migrated. reflexivity.
Qed.

(** A [null] entry that [every] reaches makes the validator raise instead
    of answering: the [catch] then hands out the fallback, under the local key
    too, and nothing is written. *)
Example getLocalVersions_null_entry :
  let ls := store_of [] [VNull; legacy_record "v1.0.0" "One" "/a"] in
  isExpectedFormat [VNull; legacy_record "v1.0.0" "One" "/a"] = Throw TypeError
  /\ getLocalVersions ls = ([], ls).
Proof.
  split; reflexivity.
Qed.

Lemma getVersions_invalid_format_by_key_witness :
  let legacy := [legacy_record "v1.0.0" "One" "/a"; VObj []] in
  let ls := store_of legacy legacy in
  getKnownVersions [version_record "9.0.0"] ls = ([version_record "9.0.0"], ls)
  /\ getLocalVersions ls =
       ([VObj [("version", VStr "v1.0.0"); ("name", VStr "One");
               ("localPath", VStr "/a")]],
        store_of legacy
                 [VObj [("version", VStr "v1.0.0"); ("name", VStr "One");
                        ("localPath", VStr "/a")]]).
Proof.
  intros legacy ls.
  destruct (@getVersions_invalid_format_by_key
              [version_record "9.0.0"] legacy ls eq_refl) as [Hknown Hlocal].
  split; [apply Hknown; reflexivity | rewrite Hlocal; reflexivity].
Defined.

(** ** The aggregated list *)

Lemma assoc_set_prop_same (p : string) (v : value)
  (props : list (string * value)) :
  assoc p (set_prop p v props) = Some v.
Proof.
  induction props as [|[k w] rest IH]; simpl.
  - rewrite String.eqb_refl. reflexivity.
  - destruct (k =? p) eqn:E; simpl; rewrite E; [reflexivity | exact IH].
Qed.

Lemma assoc_set_prop_other (p q : string) (v : value)
  (props : list (string * value)) :
  p <> q -> assoc q (set_prop p v props) = assoc q props.
Proof.
  intros Hpq. induction props as [|[k w] rest IH]; simpl.
  - apply String.eqb_neq in Hpq. rewrite Hpq. reflexivity.
  - destruct (k =? p) eqn:E; simpl.
    + apply String.eqb_eq in E. subst k.
      apply String.eqb_neq in Hpq. rewrite Hpq. reflexivity.
    + rewrite IH. reflexivity.
Qed.

(** C5. [getElectronVersions] returns the known records, each with [source]
    remote and [state] unknown, followed by the local records, each with
    [source] local and [state] ready, in the order of the two collections;
    the other properties of a record are kept. Nothing is merged: the list
    is as long as the two collections together, also when a version is in
    both. *)
Theorem getElectronVersions_known_then_local
  (releases : list value) (ls : Storage) :
  fst (getElectronVersions releases ls) =
    map (tagged ElectronVersionSource.remote ElectronVersionState.unknown)
        (fst (getKnownVersions releases ls))
    ++ map (tagged ElectronVersionSource.local ElectronVersionState.ready)
           (fst (getLocalVersions ls))
  /\ List.length (fst (getElectronVersions releases ls)) =
       List.length (fst (getKnownVersions releases ls))
       + List.length (fst (getLocalVersions ls))
  /\ (forall source state version,
        field (tagged source state version) "source" = Some source
        /\ field (tagged source state version) "state" = Some state
        /\ forall p, p <> "source" -> p <> "state" ->
             field (tagged source state version) p
             = assoc p (own_props version))
  /\ fst (getElectronVersions releases
            (store_of [version_record "1.0.0"] [local_record "1.0.0" "/x"]))
     = [VObj [("version", VStr "1.0.0"); ("source", VStr "remote");
              ("state", VStr "unknown")];
        VObj [("version", VStr "1.0.0"); ("localPath", VStr "/x");
              ("source", VStr "local"); ("state", VStr "ready")]].
Proof.
  assert (E : fst (getElectronVersions releases ls) =
    map (tagged ElectronVersionSource.remote ElectronVersionState.unknown)
        (fst (getKnownVersions releases ls))
    ++ map (tagged ElectronVersionSource.local ElectronVersionState.ready)
           (fst (getLocalVersions ls))).
  { unfold getElectronVersions.
    pose proof (getVersions_known_keeps_store (fun _ => releases) ls) as Hs.
    fold (getKnownVersions releases ls) in Hs.
    destruct (getKnownVersions releases ls) as [knownVersions ls1].
    simpl in Hs. subst ls1.
    destruct (getLocalVersions ls) as [localVersions ls2]. reflexivity. }
  split; [exact E|]. split; [|split; [|reflexivity]].
  - rewrite E, List.length_app, !List.length_map. reflexivity.
  - intros source state version. unfold tagged. simpl. repeat split.
    + rewrite assoc_set_prop_other by discriminate.
      apply assoc_set_prop_same.
    + apply assoc_set_prop_same.
    + intros p Hsource Hstate.
      rewrite !assoc_set_prop_other by (intros H; subst p; contradiction).
      reflexivity.
Qed.

(** The tags leave the [localPath] of a record as it was. *)
Lemma getElectronVersions_known_then_local_witness :
  field (tagged ElectronVersionSource.local ElectronVersionState.ready
                (local_record "1.0.0" "/x")) "localPath"
  = Some (VStr "/x").
Proof.
  destruct (getElectronVersions_known_then_local [] empty_store)
    as [_ [_ [Htagged _]]].
  destruct (Htagged ElectronVersionSource.local ElectronVersionState.ready
                    (local_record "1.0.0" "/x")) as [_ [_ Hother]].
  rewrite (Hother "localPath"); [reflexivity | discriminate | discriminate].
Defined.

(** ** Adding a local version *)

Lemma find_total (callback : value -> result bool) (f : value -> bool)
  (l : list value) :
  (forall x, In x l -> callback x = Ok (f x)) ->
  find callback l = Ok (List.find f l).
Proof.
  induction l as [|x l IH]; intros H; simpl; [reflexivity|].
  rewrite (H x (or_introl eq_refl)). simpl.
  destruct (f x); [reflexivity|].
  apply IH. intros y Hy. apply H. right. exact Hy.
Qed.

Lemma has_version_truthy (v : value) : has_version v = true -> truthy v = true.
Proof.
  intros H. destruct (@field_truthy_object v "version" H) as [props ->].
  reflexivity.
Qed.

Lemma find_same_localPath (record : list (string * value))
  (versions : list value) :
  Forall (fun v => has_version v = true) versions ->
  find (same_localPath (VObj record)) versions
  = Ok (List.find (shares_localPath (VObj record)) versions).
Proof.
  intros Hvalid. apply find_total. intros x Hx.
  rewrite Forall_forall in Hvalid. specialize (Hvalid x Hx).
  unfold same_localPath, shares_localPath.
  rewrite (get_not_null x "localPath"
             (truthy_not_null x (has_version_truthy x Hvalid))).
  reflexivity.
Qed.

(** C6. [addLocalVersion] reads the local collection. When one of its
    records shares the [localPath] of the given record, whatever the two
    versions, the collection stays as it is; when none does, the given
    record goes at its end. Either way the resulting list is returned, and
    it is what is written under the local key as long as none of its records
    carries another provenance tag than [local] (those [saveLocalVersions]
    leaves out). Adding two records with one [localPath] in a row keeps the
    first only. *)
Theorem addLocalVersion_dedups_by_localPath
  (record : list (string * value)) (ls : Storage) :
  let input := VObj record in
  let versions := fst (getLocalVersions ls) in
  exists result,
    fst (addLocalVersion input ls) = Ok result
    /\ ((exists v, In v versions /\ shares_localPath input v = true) ->
        result = versions)
    /\ ((forall v, In v versions -> shares_localPath input v = false) ->
        result = versions ++ [input])
    /\ snd (addLocalVersion input ls) =
         setItem VersionKeys.local
                 (JSON_stringify (VArr (filter persistable result))) ls
    /\ (Forall (fun v => persistable v = true) result ->
        snd (addLocalVersion input ls) =
          setItem VersionKeys.local (JSON_stringify (VArr result)) ls)
    /\ (let first := addLocalVersion (local_record "1.0.0" "/x") empty_store in
        fst first = Ok [local_record "1.0.0" "/x"]
        /\ fst (addLocalVersion (local_record "2.0.0" "/x") (snd first))
           = Ok [local_record "1.0.0" "/x"]).
Proof.
  intros input versions.
  pose proof (getLocalVersions_valid ls) as [Hvalid Hstore].
  fold versions in Hvalid.
  assert (Hfind := find_same_localPath record _ Hvalid). fold input in Hfind.
  assert (Hnull : ~ In VNull versions)
    by (apply has_version_not_null; exact Hvalid).
  unfold addLocalVersion. subst versions.
  destruct (getLocalVersions ls) as [versions ls1]. cbn [fst snd] in *.
  rewrite Hfind.
  set (found := List.find (shares_localPath input) versions).
  set (result := if negb (to_boolean found)
                 then versions ++ [input] else versions).
  assert (Hresult : ~ In VNull result).
  { subst result. destruct (negb (to_boolean found)); [|exact Hnull].
    intros Hin. apply in_app_or in Hin. destruct Hin as [Hin | Hin].
    - exact (Hnull Hin).
    - destruct Hin as [Hin | []]. discriminate Hin. }
  rewrite (saveLocalVersions_filters result ls1 Hresult).
  exists result. cbn [fst snd]. split; [reflexivity|].
  split; [|split; [|split; [|split; [|split; reflexivity]]]].
  - intros [v [Hin Hshares]]. subst result found.
    destruct (List.find (shares_localPath input) versions) as [x|] eqn:E.
    + apply find_some in E. destruct E as [Hx _].
      rewrite Forall_forall in Hvalid. simpl.
      rewrite (has_version_truthy x (Hvalid x Hx)). reflexivity.
    + rewrite (find_none _ _ E v Hin) in Hshares. discriminate Hshares.
  - intros Hnone. subst result found.
    destruct (List.find (shares_localPath input) versions) as [x|] eqn:E.
    + apply find_some in E. destruct E as [Hx Hshares].
      rewrite (Hnone x Hx) in Hshares. discriminate Hshares.
    + reflexivity.
  - unfold saveVersions. apply Hstore.
  - intros Hall. rewrite (filter_all _ _ Hall). unfold saveVersions.
    apply Hstore.
Qed.

Lemma addLocalVersion_dedups_by_localPath_witness :
  let ls := store_of [] [local_record "1.0.0" "/x"] in
  addLocalVersion (local_record "2.0.0" "/x") ls
  = (Ok [local_record "1.0.0" "/x"], ls)
  /\ addLocalVersion (local_record "2.0.0" "/y") ls
     = (Ok [local_record "1.0.0" "/x"; local_record "2.0.0" "/y"],
        store_of [] [local_record "1.0.0" "/x"; local_record "2.0.0" "/y"]).
Proof.
  intros ls. split.
  - destruct (addLocalVersion_dedups_by_localPath
                [("version", VStr "2.0.0"); ("localPath", VStr "/x")] ls)
      as [result [Hfst [Hsame [_ [_ [Hsnd _]]]]]].
    assert (E : result = [local_record "1.0.0" "/x"]).
    { apply Hsame. exists (local_record "1.0.0" "/x").
      split; [left|]; reflexivity. }
    subst result. apply injective_projections.
    + exact Hfst.
    + etransitivity; [apply Hsnd; repeat constructor | reflexivity].
  - destruct (addLocalVersion_dedups_by_localPath
                [("version", VStr "2.0.0"); ("localPath", VStr "/y")] ls)
      as [result [Hfst [_ [Hnew [_ [Hsnd _]]]]]].
    assert (E : result = [local_record "1.0.0" "/x";
                          local_record "2.0.0" "/y"]).
    { apply Hnew. intros v [<- | []]. reflexivity. }
    subst result. apply injective_projections.
    + exact Hfst.
    + etransitivity; [apply Hsnd; repeat constructor | reflexivity].
Defined.

(** ** The default version *)

Lemma strict_eq_string (a : option value) (s : string) :
  strict_eq a (Some (VStr s)) = true <-> a = Some (VStr s).
Proof.
  destruct a as [[]|]; simpl; split; intros H;
    try discriminate H; try reflexivity.
  - apply String.eqb_eq in H. subst. reflexivity.
  - injection H as ->. apply String.eqb_refl.
Qed.

Lemma find_found (callback : value -> result bool) (l : list value)
  (x : value) :
  find callback l = Ok (Some x) -> In x l /\ callback x = Ok true.
Proof.
  induction l as [|y l IH]; simpl; [discriminate|].
  destruct (callback y) as [[]|] eqn:E; simpl.
  - intros H. injection H as ->. split; [left; reflexivity | exact E].
  - intros H. destruct (IH H) as [Hin Hcb]. split; [right|]; assumption.
  - discriminate.
Qed.

Lemma listed_true (wanted : string) (knownVersions : list value) :
  listed wanted knownVersions = Ok true ->
  exists record,
    In record knownVersions
    /\ get record "version" = Ok (Some (VStr wanted)).
Proof.
  unfold listed.
  destruct (find _ knownVersions) as [[x|]|] eqn:E; simpl;
    try discriminate.
  intros _. apply find_found in E. destruct E as [Hin Hcb].
  exists x. split; [exact Hin|].
  destruct (get x "version") as [version|]; simpl in Hcb;
    [|discriminate Hcb].
  injection Hcb as Hcb. apply strict_eq_string in Hcb. subst. reflexivity.
Qed.

Lemma matches_spec (knownVersions : list value) (wanted : string) :
  matches knownVersions wanted = true <-> has_record knownVersions wanted.
Proof.
  unfold matches, has_record. rewrite existsb_exists.
  split; intros [record [Hin H]]; exists record; (split; [exact Hin|]);
    apply strict_eq_string; exact H.
Qed.

Lemma listed_matches (wanted : string) (knownVersions : list value) :
  Forall (fun v => has_version v = true) knownVersions ->
  listed wanted knownVersions = Ok (matches knownVersions wanted).
Proof.
  intros Hvalid. unfold listed, matches.
  rewrite (find_total _
             (fun v => strict_eq (field v "version") (Some (VStr wanted)))).
  - simpl. f_equal. induction Hvalid as [|x l Hx _ IH]; [reflexivity|].
    simpl. destruct (strict_eq (field x "version") (Some (VStr wanted))).
    + simpl. apply has_version_truthy. exact Hx.
    + exact IH.
  - intros x Hx. rewrite Forall_forall in Hvalid.
    rewrite (get_not_null x "version"
               (truthy_not_null x (has_version_truthy x (Hvalid x Hx)))).
    reflexivity.
Qed.

(** A record of a validated list has a version that is not empty. *)
Lemma has_record_not_empty (knownVersions : list value) :
  Forall (fun v => has_version v = true) knownVersions ->
  ~ has_record knownVersions "".
Proof.
  intros Hvalid [record [Hin H]]. rewrite Forall_forall in Hvalid.
  specialize (Hvalid record Hin). unfold has_version in Hvalid.
  rewrite H in Hvalid. discriminate Hvalid.
Qed.

(** The two last tests of [getDefaultVersion] return the [version] of the
    first record when they return. *)
Lemma first_version_returned (ls : option string) (first : option value)
  (v : option value) :
  (if is_set ls && to_boolean first then member first "version" else
   usable <- (if to_boolean first
              then version <- member first "version" ;; Ok (to_boolean version)
              else Ok false) ;;
   if usable then member first "version" else Throw corrupted) = Ok v ->
  member first "version" = Ok v.
Proof.
  destruct (is_set ls && to_boolean first); [intros H; exact H|].
  destruct (to_boolean first); simpl.
  - destruct (member first "version") as [version|]; simpl; [|discriminate].
    destruct (to_boolean version); [intros H; exact H | discriminate].
  - discriminate.
Qed.

(** C10. A string that [getDefaultVersion] returns is the [version] of a
    record of the list it was given. *)
Theorem getDefaultVersion_returns_listed_version
  (normalizeVersion : string -> option string) (knownVersions : list value)
  (store : Storage) (v : option value) :
  getDefaultVersion normalizeVersion knownVersions store = Ok v ->
  exists record, In record knownVersions /\ get record "version" = Ok v.
Proof.
  assert (Hfirst : member (nth_error knownVersions 0) "version" = Ok v ->
            exists record,
              In record knownVersions /\ get record "version" = Ok v).
  { destruct knownVersions as [|first rest]; simpl; [discriminate|].
    intros H. exists first. split; [left; reflexivity | exact H]. }
  assert (Hlisted : forall wanted,
            when_set (Some wanted) (fun s => listed s knownVersions) = Ok true ->
            v = Some (VStr wanted) ->
            exists record,
              In record knownVersions /\ get record "version" = Ok v).
  { intros wanted H ->. simpl in H.
    destruct (wanted =? ""); [discriminate H|].
    apply listed_true. exact H. }
  unfold getDefaultVersion.
  destruct (version_item store) as [s|].
  - destruct (when_set (Some s) (fun s0 => listed s0 knownVersions))
      as [[]|] eqn:Hit; cbn [bind]; [| |discriminate].
    + intros H. injection H as <-. apply (Hlisted s Hit). reflexivity.
    + destruct (s =? "") eqn:Es.
      * rewrite Hit. cbn [bind].
        intros H. apply Hfirst. revert H. apply first_version_returned.
      * destruct (normalizeVersion s) as [n|]; cbn [when_set bind].
        -- destruct (when_set (Some n) (fun n0 => listed n0 knownVersions))
             as [[]|] eqn:Healed; cbn [when_set bind] in Healed |- *;
             rewrite Healed; cbn [bind]; [| |discriminate].
           ++ intros H. injection H as <-. apply (Hlisted n Healed).
              reflexivity.
           ++ intros H. apply Hfirst. revert H.
              apply first_version_returned.
        -- intros H. apply Hfirst. revert H. apply first_version_returned.
  - cbn [when_set bind].
    intros H. apply Hfirst. revert H. apply first_version_returned.
Qed.

Lemma getDefaultVersion_returns_listed_version_witness :
  exists record,
    In record [version_record "2.0.0"; version_record "1.0.0"]
    /\ get record "version" = Ok (Some (VStr "1.0.0")).
Proof.
  apply (getDefaultVersion_returns_listed_version strip_v
           [version_record "2.0.0"; version_record "1.0.0"]
           (mkStorage (Some "v1.0.0") None None)).
  reflexivity.
Defined.

Lemma first_or_corrupted_valid (ls : option string)
  (knownVersions : list value) :
  Forall (fun v => has_version v = true) knownVersions ->
  let first := nth_error knownVersions 0 in
  (if is_set ls && to_boolean first then member first "version" else
   usable <- (if to_boolean first
              then version <- member first "version" ;; Ok (to_boolean version)
              else Ok false) ;;
   if usable then member first "version" else Throw corrupted)
  = first_or_corrupted knownVersions.
Proof.
  intros Hvalid. destruct Hvalid as [|first rest Hfirst _]; simpl.
  - rewrite andb_false_r. reflexivity.
  - rewrite (has_version_truthy first Hfirst), andb_true_r.
    rewrite (get_not_null first "version"
               (truthy_not_null first (has_version_truthy first Hfirst))).
    simpl. unfold has_version in Hfirst. rewrite Hfirst.
    destruct (is_set ls); reflexivity.
Qed.

(** [getDefaultVersion] on a list of valid records. *)
Lemma getDefaultVersion_valid (normalizeVersion : string -> option string)
  (knownVersions : list value) (store : Storage) :
  Forall (fun v => has_version v = true) knownVersions ->
  getDefaultVersion normalizeVersion knownVersions store =
    match version_item store with
    | Some s =>
        if s =? "" then first_or_corrupted knownVersions
        else if matches knownVersions s then Ok (Some (VStr s))
        else
          match normalizeVersion s with
          | Some n =>
              if negb (n =? "") && matches knownVersions n
              then Ok (Some (VStr n))
              else first_or_corrupted knownVersions
          | None => first_or_corrupted knownVersions
          end
    | None => first_or_corrupted knownVersions
    end.
Proof.
  intros Hvalid. unfold getDefaultVersion.
  destruct (version_item store) as [s|]; cbn [when_set bind].
  - destruct (s =? "") eqn:Es; cbn [bind when_set]; rewrite ?Es; cbn [bind].
    + apply (first_or_corrupted_valid (Some s) knownVersions Hvalid).
    + rewrite (listed_matches s knownVersions Hvalid). cbn [bind].
      destruct (matches knownVersions s); [reflexivity|].
      destruct (normalizeVersion s) as [n|]; cbn [when_set bind].
      * destruct (n =? "") eqn:En; cbn [bind negb andb].
        -- apply (first_or_corrupted_valid (Some s) knownVersions Hvalid).
        -- rewrite (listed_matches n knownVersions Hvalid). cbn [bind].
           destruct (matches knownVersions n); [reflexivity|].
           apply (first_or_corrupted_valid (Some s) knownVersions Hvalid).
      * apply (first_or_corrupted_valid (Some s) knownVersions Hvalid).
  - apply (first_or_corrupted_valid None knownVersions Hvalid).
Qed.

(** C1, as stated, fails: with a remembered selection and an empty list,
    [getDefaultVersion] raises the error all the same. *)
Lemma getDefaultVersion_raises_with_remembered_selection :
  ~ (getDefaultVersion strip_v [] (mkStorage (Some "1.0.0") None None)
       = Throw corrupted
     <-> ([] = @nil value
          /\ version_item (mkStorage (Some "1.0.0") None None) = None)).
Proof.
  intros [H _]. destruct (H eq_refl) as [_ E]. discriminate E.
Qed.

(** C1, amended. [getDefaultVersion] raises the corrupted-state error
    whenever the list of known versions is empty, whether a remembered
    selection is stored or not; on a list of valid records that is not empty
    it returns a value and does not raise. *)
Theorem getDefaultVersion_raises_iff_empty :
  (forall normalizeVersion store,
     getDefaultVersion normalizeVersion [] store = Throw corrupted)
  /\ (forall normalizeVersion knownVersions store,
        Forall (fun v => has_version v = true) knownVersions ->
        knownVersions <> [] ->
        exists v,
          getDefaultVersion normalizeVersion knownVersions store
          = Ok (Some v)).
Proof.
  split.
  - intros normalizeVersion store.
    rewrite getDefaultVersion_valid by constructor. simpl.
    destruct (version_item store) as [s|]; [|reflexivity].
    destruct (s =? ""); [reflexivity|].
    destruct (normalizeVersion s) as [n|]; [|reflexivity].
    rewrite andb_false_r. reflexivity.
  - intros normalizeVersion knownVersions store Hvalid Hne.
    rewrite (getDefaultVersion_valid _ _ _ Hvalid).
    assert (Hfirst : exists v, first_or_corrupted knownVersions = Ok (Some v)).
    { destruct Hvalid as [|first rest Hfirst _]; [contradiction Hne; reflexivity|].
      simpl. unfold has_version in Hfirst.
      destruct (field first "version") as [v|]; [|discriminate Hfirst].
      exists v. reflexivity. }
    destruct (version_item store) as [s|]; [|exact Hfirst].
    destruct (s =? ""); [exact Hfirst|].
    destruct (matches knownVersions s); [eexists; reflexivity|].
    destruct (normalizeVersion s) as [n|]; [|exact Hfirst].
    destruct (negb (n =? "") && matches knownVersions n);
      [eexists; reflexivity | exact Hfirst].
Qed.

Lemma getDefaultVersion_raises_iff_empty_witness :
  exists v,
    getDefaultVersion strip_v [version_record "2.0.0"] empty_store
    = Ok (Some v).
Proof.
  apply (proj2 getDefaultVersion_raises_iff_empty strip_v
               [version_record "2.0.0"] empty_store).
  - repeat constructor.
  - discriminate.
Defined.

(** C4. On a list of valid records and with a remembered selection,
    [getDefaultVersion] answers, in this order: the remembered string when a
    record has exactly it as version; else the normalized form of the
    remembered string when a record has exactly that as version; else, the
    remembered string having matched nothing, the version of the first
    record of the list. *)
Theorem getDefaultVersion_resolution_order
  (normalizeVersion : string -> option string) (knownVersions : list value)
  (store : Storage) (remembered : string) :
  Forall (fun v => has_version v = true) knownVersions ->
  version_item store = Some remembered ->
  (has_record knownVersions remembered ->
   getDefaultVersion normalizeVersion knownVersions store
   = Ok (Some (VStr remembered)))
  /\ (forall normalized,
        remembered <> "" ->
        ~ has_record knownVersions remembered ->
        normalizeVersion remembered = Some normalized ->
        has_record knownVersions normalized ->
        getDefaultVersion normalizeVersion knownVersions store
        = Ok (Some (VStr normalized)))
  /\ (forall first rest,
        knownVersions = first :: rest ->
        ~ has_record knownVersions remembered ->
        (forall normalized,
           normalizeVersion remembered = Some normalized ->
           ~ has_record knownVersions normalized) ->
        getDefaultVersion normalizeVersion knownVersions store
        = Ok (field first "version")).
Proof.
  intros Hvalid Hstore.
  pose proof (has_record_not_empty knownVersions Hvalid) as Hempty.
  assert (Hno : forall s, ~ has_record knownVersions s ->
                          matches knownVersions s = false).
  { intros s H. destruct (matches knownVersions s) eqn:E; [|reflexivity].
    apply matches_spec in E. contradiction. }
  rewrite (getDefaultVersion_valid _ _ _ Hvalid), Hstore.
  split; [|split].
  - intros Hrec.
    destruct (String.eqb_spec remembered "") as [-> | _];
      [contradiction (Hempty Hrec)|].
    apply matches_spec in Hrec. rewrite Hrec. reflexivity.
  - intros normalized Hne Hnot Hnorm Hrec.
    apply String.eqb_neq in Hne. rewrite Hne, (Hno _ Hnot), Hnorm.
    destruct (String.eqb_spec normalized "") as [-> | _];
      [contradiction (Hempty Hrec)|].
    apply matches_spec in Hrec. rewrite Hrec. reflexivity.
  - intros first rest -> Hnot Hnorm.
    destruct (remembered =? ""); [reflexivity|].
    rewrite (Hno _ Hnot).
    destruct (normalizeVersion remembered) as [n|]; [|reflexivity].
    rewrite (Hno _ (Hnorm n eq_refl)), andb_false_r. reflexivity.
Qed.

(** With "v1.0.0" remembered the answer is the normalized "1.0.0" of the
    list; with "garbage" remembered it is "2.0.0", the first of the list. *)
Lemma getDefaultVersion_resolution_order_witness :
  let knownVersions := [version_record "2.0.0"; version_record "1.0.0"] in
  getDefaultVersion strip_v knownVersions (mkStorage (Some "v1.0.0") None None)
  = Ok (Some (VStr "1.0.0"))
  /\ getDefaultVersion strip_v knownVersions
       (mkStorage (Some "garbage") None None)
     = Ok (Some (VStr "2.0.0")).
Proof.
  intros knownVersions.
  assert (Hvalid : Forall (fun v => has_version v = true) knownVersions)
    by (repeat constructor).
  assert (Hnot : forall s, s <> "2.0.0" -> s <> "1.0.0" ->
                           ~ has_record knownVersions s).
  { intros s H2 H1 [record [Hin H]].
    destruct Hin as [<- | [<- | []]]; injection H as <-;
      [apply H2 | apply H1]; reflexivity. }
  split.
  - apply (proj1 (proj2 (getDefaultVersion_resolution_order strip_v
             knownVersions (mkStorage (Some "v1.0.0") None None) "v1.0.0"
             Hvalid eq_refl)) "1.0.0").
    + discriminate.
    + apply Hnot; discriminate.
    + reflexivity.
    + exists (version_record "1.0.0"). split; [right; left|]; reflexivity.
  - apply (proj2 (proj2 (getDefaultVersion_resolution_order strip_v
             knownVersions (mkStorage (Some "garbage") None None) "garbage"
             Hvalid eq_refl)) (version_record "2.0.0")
             [version_record "1.0.0"] eq_refl).
    + apply Hnot; discriminate.
    + intros normalized H. injection H as <-. apply Hnot; discriminate.
Defined.

(** * Further properties of the module *)

(** ** The validator *)

Lemma isExpectedFormat_cons_valid (x : value) (l : list value) :
  has_version x = true -> isExpectedFormat (x :: l) = isExpectedFormat l.
Proof.
  intros Hx. unfold isExpectedFormat. simpl.
  rewrite (get_not_null x "version"
             (truthy_not_null x (has_version_truthy x Hx))).
  simpl. unfold has_version in Hx. rewrite Hx. reflexivity.
Qed.

Lemma isExpectedFormat_not_null (l : list value) :
  ~ In VNull l -> isExpectedFormat l = Ok (forallb has_version l).
Proof.
  induction l as [|x l IH]; intros Hnull; [reflexivity|].
  assert (Hx : x <> VNull) by (intros ->; apply Hnull; left; reflexivity).
  assert (Hl : ~ In VNull l) by (intros H; apply Hnull; right; exact H).
  destruct (has_version x) eqn:E.
  - rewrite (isExpectedFormat_cons_valid x l E). simpl. rewrite E.
    apply IH. exact Hl.
  - assert (E' := E). unfold has_version in E'.
    unfold isExpectedFormat. simpl. rewrite (get_not_null x "version" Hx).
    simpl. rewrite E', E. reflexivity.
Qed.

Lemma forallb_has_version (l : list value) :
  forallb has_version l = true <-> Forall (fun v => has_version v = true) l.
Proof.
  rewrite forallb_forall, Forall_forall. reflexivity.
Qed.

(** X1. [isExpectedFormat] looks at the entries in order and stops at the
    first one without a truthy [version]: it answers [true] on a list of
    valid records, the empty one included; it answers [false] as soon as an
    entry other than [null] has no truthy [version], whatever follows it;
    and it raises a TypeError when the first entry that is not valid is
    [null]. *)
Theorem isExpectedFormat_stops_at_first_refusal
  (valid : list value) (entry : value) (rest : list value) :
  Forall (fun v => has_version v = true) valid ->
  isExpectedFormat valid = Ok true
  /\ (entry <> VNull -> has_version entry = false ->
      isExpectedFormat (valid ++ entry :: rest) = Ok false)
  /\ isExpectedFormat (valid ++ VNull :: rest) = Throw TypeError.
Proof.
  intros Hvalid. split; [apply isExpectedFormat_true; exact Hvalid|].
  induction Hvalid as [|x l Hx _ IH].
  - split; [|reflexivity].
    intros Hentry Hbad. unfold isExpectedFormat. simpl.
    rewrite (get_not_null entry "version" Hentry). simpl.
    unfold has_version in Hbad. rewrite Hbad. reflexivity.
  - rewrite <- !app_comm_cons.
    rewrite !(isExpectedFormat_cons_valid x _ Hx). exact IH.
Qed.

Lemma isExpectedFormat_stops_at_first_refusal_witness :
  isExpectedFormat [version_record "1.0.0"; VObj []; VNull] = Ok false
  /\ isExpectedFormat [version_record "1.0.0"; VNull; VObj []]
     = Throw TypeError.
Proof.
  destruct (isExpectedFormat_stops_at_first_refusal
              [version_record "1.0.0"] (VObj []) [VNull])
    as [_ [Hfalse _]]; [repeat constructor|].
  destruct (isExpectedFormat_stops_at_first_refusal
              [version_record "1.0.0"] (VObj []) [VObj []])
    as [_ [_ Hraise]]; [repeat constructor|].
  split; [apply Hfalse; [discriminate | reflexivity] | exact Hraise].
Defined.

(** ** Reading and writing the collections *)

(** X2. A read hands out the fallback and leaves the store as it is, under
    either key, when nothing is stored under the key, when the stored string
    is empty or is no JSON text, when it denotes something else than a list,
    and when the validator raises on the list. *)
Theorem getVersions_falls_back (key : VersionKeys.t)
  (fallbackMethod : unit -> list value) (ls : Storage) :
  getItem key ls = None
  \/ getItem key ls = Some Empty
  \/ getItem key ls = Some Malformed
  \/ (exists v, getItem key ls = Some (Json v)
                /\ forall items, v <> VArr items)
  \/ (exists items e, getItem key ls = Some (Json (VArr items))
                      /\ isExpectedFormat items = Throw e) ->
  getVersions key fallbackMethod ls = (fallbackMethod tt, ls).
Proof.
  unfold getVersions, getVersions_try.
  intros [H | [H | [H | [[v [H Hv]] | [items [e [H He]]]]]]]; rewrite H;
    try reflexivity; simpl.
  - destruct v; try reflexivity. contradiction (Hv items). reflexivity.
  - rewrite He. reflexivity.
Qed.

Lemma getVersions_falls_back_witness :
  getLocalVersions (mkStorage None (Some (Json (VObj []))) None)
  = ([], mkStorage None (Some (Json (VObj []))) None).
Proof.
  apply (getVersions_falls_back VersionKeys.local (fun _ => [])).
  right. right. right. left. exists (VObj []).
  split; [reflexivity | discriminate].
Defined.

(** X3. What [saveKnownVersions] wrote, [getKnownVersions] returns as it
    was written when every record of it has a truthy [version]; in every
    other case it returns the bundled list. The read leaves the store as the
    write left it. *)
Theorem saveKnownVersions_then_getKnownVersions
  (releases versions : list value) (ls : Storage) :
  getKnownVersions releases (saveKnownVersions versions ls)
  = (if forallb has_version versions then versions else releases,
     saveKnownVersions versions ls).
Proof.
  unfold getKnownVersions, getVersions, getVersions_try. simpl.
  destruct (forallb has_version versions) eqn:E.
  - apply forallb_has_version, isExpectedFormat_true in E. rewrite E.
    reflexivity.
  - destruct (isExpectedFormat versions) as [[]|] eqn:F; try reflexivity.
    apply isExpectedFormat_true, forallb_has_version in F.
    rewrite F in E. discriminate E.
Qed.

Lemma null_entry_dec (l : list value) : In VNull l \/ ~ In VNull l.
Proof.
  induction l as [|x l [IH | IH]].
  - right. intros [].
  - left. right. exact IH.
  - destruct x; try (right; intros [H | H]; [discriminate H | exact (IH H)]).
    left. left. reflexivity.
Qed.

Lemma filter_not_null (f : value -> bool) (l : list value) :
  ~ In VNull l -> ~ In VNull (filter f l).
Proof.
  intros H Hin. apply filter_In in Hin. exact (H (proj1 Hin)).
Qed.

(** X4. What [saveLocalVersions] wrote of a list without [null],
    [getLocalVersions] returns: the records of the list that carry no tag or
    the tag [local], as long as each of them has a truthy [version]; the
    read then writes nothing. *)
Theorem saveLocalVersions_then_getLocalVersions
  (versions : list value) (ls : Storage) :
  ~ In VNull versions ->
  Forall (fun v => has_version v = true) (filter persistable versions) ->
  exists saved,
    saveLocalVersions versions ls = Ok saved
    /\ getLocalVersions saved = (filter persistable versions, saved).
Proof.
  intros Hnull Hvalid.
  exists (saveVersions VersionKeys.local (filter persistable versions) ls).
  split; [apply saveLocalVersions_filters; exact Hnull|].
  apply getVersions_valid; [reflexivity | exact Hvalid].
Qed.

Lemma saveLocalVersions_then_getLocalVersions_witness :
  exists saved,
    saveLocalVersions
      [local_record "1.0.0" "/x";
       VObj [("version", VStr "2.0.0"); ("source", VStr "remote")]]
      empty_store = Ok saved
    /\ getLocalVersions saved = ([local_record "1.0.0" "/x"], saved).
Proof.
  apply (saveLocalVersions_then_getLocalVersions
           [local_record "1.0.0" "/x";
            VObj [("version", VStr "2.0.0"); ("source", VStr "remote")]]
           empty_store).
  - simpl. intros [H | [H | H]]; try discriminate H. exact H.
  - repeat constructor.
Defined.

Lemma migrateVersions_without_tag_name (l : list value) :
  (forall v, In v l -> to_boolean (field v "tag_name") = false) ->
  migrateVersions l = [].
Proof.
  induction l as [|x l IH]; intros H; [reflexivity|].
  rewrite migrateVersions_cons.
  assert (E : migrate_item x = VNull).
  { unfold migrate_item. rewrite (H x (or_introl eq_refl)). reflexivity. }
  rewrite E, andb_false_r. simpl.
  apply IH. intros v Hv. apply H. right. exact Hv.
Qed.

(** X5. One record without a truthy [version] among those that
    [saveLocalVersions] writes makes the next read take the whole list for a
    legacy one: the read returns its migration and writes that over the
    collection. When no record of the list has a truthy [tag_name], as with
    records of the current shape, the next read returns the empty list and
    the collection is left empty. *)
Theorem unversioned_record_triggers_migration
  (versions : list value) (ls : Storage) :
  ~ In VNull versions ->
  (exists v, In v (filter persistable versions) /\ has_version v = false) ->
  exists saved,
    saveLocalVersions versions ls = Ok saved
    /\ getLocalVersions saved
       = (migrateVersions (filter persistable versions),
          setItem VersionKeys.local
            (JSON_stringify
               (VArr (migrateVersions (filter persistable versions))))
            saved)
    /\ ((forall v, In v versions -> to_boolean (field v "tag_name") = false) ->
        getLocalVersions saved
        = ([], setItem VersionKeys.local (JSON_stringify (VArr [])) saved)).
Proof.
  intros Hnull [bad [Hin Hbad]].
  set (persisted := filter persistable versions) in *.
  exists (saveVersions VersionKeys.local persisted ls).
  split; [apply saveLocalVersions_filters; exact Hnull|].
  assert (Hformat : isExpectedFormat persisted = Ok false).
  { rewrite isExpectedFormat_not_null
      by (apply filter_not_null; exact Hnull).
    f_equal. destruct (forallb has_version persisted) eqn:E; [|reflexivity].
    rewrite forallb_forall in E. rewrite (E bad Hin) in Hbad.
    discriminate Hbad. }
  assert (Hread : getLocalVersions (saveVersions VersionKeys.local persisted ls)
                  = (migrateVersions persisted,
                     setItem VersionKeys.local
                       (JSON_stringify (VArr (migrateVersions persisted)))
                       (saveVersions VersionKeys.local persisted ls))).
  { unfold getLocalVersions, getVersions, getVersions_try. simpl.
    rewrite Hformat. simpl. rewrite saveLocalVersions_migrated.
    reflexivity. }
  split; [exact Hread|].
  intros Hlegacy. rewrite Hread.
  rewrite (migrateVersions_without_tag_name persisted); [reflexivity|].
  intros v Hv. apply Hlegacy. apply filter_In in Hv. exact (proj1 Hv).
Qed.

Lemma unversioned_record_triggers_migration_witness :
  exists saved,
    saveLocalVersions
      [local_record "1.0.0" "/x"; local_record "" "/y"] empty_store
    = Ok saved
    /\ getLocalVersions saved
       = ([], setItem VersionKeys.local (JSON_stringify (VArr [])) saved).
Proof.
  destruct (unversioned_record_triggers_migration
              [local_record "1.0.0" "/x"; local_record "" "/y"] empty_store)
    as [saved [Hsave [_ Hempty]]].
  - simpl. intros [H | [H | H]]; try discriminate H. exact H.
  - exists (local_record "" "/y"). split; [right; left|]; reflexivity.
  - exists saved. split; [exact Hsave|]. apply Hempty.
    intros v [<- | [<- | []]]; reflexivity.
Defined.

Lemma getLocalVersions_repaired (ls : Storage) :
  getLocalVersions (snd (getLocalVersions ls)) = getLocalVersions ls.
Proof.
  destruct (local_item ls) as [[| |[| | | |items|]]|] eqn:Hitem;
    try (unfold getLocalVersions, getVersions, getVersions_try; simpl;
         rewrite Hitem; simpl; rewrite Hitem; reflexivity).
  unfold getLocalVersions at 2 3. unfold getVersions, getVersions_try. simpl.
  rewrite Hitem. simpl.
  destruct (isExpectedFormat items) as [[]|] eqn:E; simpl.
  1, 3: unfold getLocalVersions, getVersions, getVersions_try; simpl;
        rewrite Hitem; simpl; rewrite E; reflexivity.
  rewrite saveLocalVersions_migrated. simpl.
  apply getVersions_valid; [reflexivity|].
  pose proof (migrateVersions_valid items) as H. revert H.
  apply Forall_impl. intros v [Hv _]. exact Hv.
Qed.

(** X6. Reading the local collection a second time gives what the first read
    gave and leaves the store as the first read left it: whatever a read
    repairs, it repairs once. In particular a legacy collection is migrated
    by the first read only. *)
Theorem getLocalVersions_twice (ls : Storage) :
  getLocalVersions (snd (getLocalVersions ls)) = getLocalVersions ls
  /\ forall legacy,
       local_item ls = Some (Json (VArr legacy)) ->
       isExpectedFormat legacy = Ok false ->
       fst (getLocalVersions ls) = migrateVersions legacy
       /\ local_item (snd (getLocalVersions ls))
          = Some (JSON_stringify (VArr (migrateVersions legacy)))
       /\ getLocalVersions (snd (getLocalVersions ls))
          = (migrateVersions legacy, snd (getLocalVersions ls)).
Proof.
  split; [apply getLocalVersions_repaired|].
  intros legacy Hitem Hformat.
  assert (E : getLocalVersions ls
              = (migrateVersions legacy,
                 saveVersions VersionKeys.local (migrateVersions legacy) ls)).
  { unfold getLocalVersions, getVersions, getVersions_try. simpl.
    rewrite Hitem. simpl. rewrite Hformat. simpl.
    rewrite saveLocalVersions_migrated. reflexivity. }
  split; [rewrite E; reflexivity|]. split; [rewrite E; reflexivity|].
  rewrite getLocalVersions_repaired. rewrite E. reflexivity.
Qed.

Lemma getLocalVersions_twice_witness :
  let ls := store_of [] [legacy_record "v1.0.0" "One" "/a"] in
  getLocalVersions (snd (getLocalVersions ls))
  = (migrateVersions [legacy_record "v1.0.0" "One" "/a"],
     snd (getLocalVersions ls)).
Proof.
  intros ls.
  apply (proj2 (getLocalVersions_twice ls)
               [legacy_record "v1.0.0" "One" "/a"]); reflexivity.
Defined.

(** ** More on the migration *)

Lemma migrateVersions_shape (input : list value) (r : value) :
  In r (migrateVersions input) ->
  exists tag_name name url,
    r = VObj [("version", tag_name); ("name", name); ("localPath", url)]
    /\ truthy tag_name = true /\ truthy name = true /\ truthy url = true.
Proof.
  induction input as [|entry rest IH]; [intros []|].
  rewrite migrateVersions_cons.
  destruct (truthy entry && truthy (migrate_item entry)) eqn:E;
    [|exact IH].
  intros [<- | Hin]; [|exact (IH Hin)].
  apply andb_true_iff in E. destruct E as [_ E].
  unfold migrate_item in E |- *.
  destruct (to_boolean (field entry "tag_name")) eqn:Tt; [|discriminate E].
  destruct (to_boolean (field entry "name")) eqn:Tn; [|discriminate E].
  destruct (to_boolean (field entry "url")) eqn:Tu; [|discriminate E].
  simpl.
  destruct (field entry "tag_name") as [t|]; [|discriminate Tt].
  destruct (field entry "name") as [n|]; [|discriminate Tn].
  destruct (field entry "url") as [u|]; [|discriminate Tu].
  exists t, n, u. repeat split; assumption.
Qed.

(** X7. [migrateVersions] treats each entry on its own: the migration of two
    lists put end to end is the two migrations put end to end, and a
    migration is never longer than the list it was given. *)
Theorem migrateVersions_entry_by_entry (first second : list value) :
  migrateVersions (first ++ second)
  = migrateVersions first ++ migrateVersions second
  /\ (List.length (migrateVersions first) <= List.length first)%nat.
Proof.
  unfold migrateVersions. split.
  - rewrite filter_app, map_app, filter_app. reflexivity.
  - etransitivity; [apply filter_length_le|].
    rewrite List.length_map. apply filter_length_le.
Qed.

(** X8. Whatever list [migrateVersions] is given, what it returns passes the
    validator, each record of it being an object with exactly a truthy
    [version], a truthy [name] and a truthy [localPath]; and migrating what
    a migration returned leaves nothing: a migrated record has no
    [tag_name] any more. *)
Theorem migrateVersions_result_is_current_format (input : list value) :
  isExpectedFormat (migrateVersions input) = Ok true
  /\ (forall r, In r (migrateVersions input) ->
        exists version name localPath,
          r = VObj [("version", version); ("name", name);
                    ("localPath", localPath)]
          /\ truthy version = true /\ truthy name = true
          /\ truthy localPath = true)
  /\ migrateVersions (migrateVersions input) = [].
Proof.
  split; [|split].
  - apply isExpectedFormat_true.
    pose proof (migrateVersions_valid input) as H. revert H.
    apply Forall_impl. intros v [Hv _]. exact Hv.
  - apply migrateVersions_shape.
  - apply migrateVersions_without_tag_name. intros v Hv.
    destruct (migrateVersions_shape input v Hv) as [t [n [u [-> _]]]].
    reflexivity.
Qed.

Lemma migrateVersions_result_is_current_format_witness :
  exists version name localPath,
    VObj [("version", VStr "v1.0.0"); ("name", VStr "One");
          ("localPath", VStr "/a")]
    = VObj [("version", version); ("name", name); ("localPath", localPath)]
    /\ truthy version = true /\ truthy name = true
    /\ truthy localPath = true.
Proof.
  apply (proj1 (proj2 (migrateVersions_result_is_current_format
                         [legacy_record "v1.0.0" "One" "/a"; VNull]))).
  left. reflexivity.
Defined.

(** ** More on saving the local collection *)

Lemma filter_cb_null (callback : value -> result bool) (e : exn)
  (l : list value) :
  (forall x, x <> VNull -> exists b, callback x = Ok b) ->
  callback VNull = Throw e ->
  In VNull l -> filter_cb callback l = Throw e.
Proof.
  intros Hok Hnull. induction l as [|x l IH]; intros Hin; [destruct Hin|].
  simpl. destruct x;
    try (rewrite Hnull; reflexivity);
    (destruct Hin as [Hx | Hin]; [discriminate Hx|]);
    match goal with
    | |- bind (callback ?v) _ = _ =>
        destruct (Hok v) as [kept Hkept]; [discriminate|]; rewrite Hkept
    end;
    simpl; rewrite (IH Hin); reflexivity.
Qed.

Lemma saveLocalVersions_null (versions : list value) (ls : Storage) :
  In VNull versions -> saveLocalVersions versions ls = Throw TypeError.
Proof.
  intros Hin. unfold saveLocalVersions.
  rewrite (filter_cb_null _ TypeError versions); [reflexivity| |reflexivity|exact Hin].
  intros x Hx. unfold isElectronVersion.
  rewrite (get_not_null x "source" Hx). simpl.
  destruct (negb (strict_eq (field x "source") undefined));
    eexists; reflexivity.
Qed.

(** X9. [saveLocalVersions] raises a TypeError exactly when the list holds a
    [null], and then writes nothing; on every other list it returns
    normally. *)
Theorem saveLocalVersions_raises_on_null (versions : list value)
  (ls : Storage) :
  (saveLocalVersions versions ls = Throw TypeError <-> In VNull versions)
  /\ (~ In VNull versions ->
      exists saved, saveLocalVersions versions ls = Ok saved).
Proof.
  split; [split|].
  - intros H. destruct (null_entry_dec versions) as [Hin | Hnot];
      [exact Hin|].
    rewrite (saveLocalVersions_filters versions ls Hnot) in H.
    discriminate H.
  - apply saveLocalVersions_null.
  - intros Hnot. eexists. apply saveLocalVersions_filters. exact Hnot.
Qed.

Lemma saveLocalVersions_raises_on_null_witness :
  exists saved,
    saveLocalVersions [local_record "1.0.0" "/x"] empty_store = Ok saved.
Proof.
  apply (proj2 (saveLocalVersions_raises_on_null
                  [local_record "1.0.0" "/x"] empty_store)).
  simpl. intros [H | H]; [discriminate H | exact H].
Defined.

(** ** More on the aggregated list *)

Lemma field_tagged_source (source state version : value) :
  field (tagged source state version) "source" = Some source.
Proof.
  unfold tagged. simpl.
  rewrite assoc_set_prop_other by discriminate.
  apply assoc_set_prop_same.
Qed.

Lemma field_tagged_other (source state version : value) (p : string) :
  p <> "source" -> p <> "state" ->
  field (tagged source state version) p = assoc p (own_props version).
Proof.
  intros Hsource Hstate. unfold tagged. simpl.
  rewrite !assoc_set_prop_other by (intros H; subst p; contradiction).
  reflexivity.
Qed.

Lemma tagged_valid (source state version : value) :
  has_version version = true ->
  has_version (tagged source state version) = true.
Proof.
  intros H. destruct (field_truthy_object version "version" H) as [props ->].
  unfold has_version in H |- *.
  rewrite field_tagged_other by discriminate. exact H.
Qed.

Lemma filter_map_none {A : Type} (f : value -> bool) (g : A -> value)
  (l : list A) :
  (forall x, f (g x) = false) -> filter f (map g l) = [].
Proof.
  intros H. induction l as [|x l IH]; simpl; [reflexivity|].
  rewrite H. exact IH.
Qed.

Lemma filter_map_all {A : Type} (f : value -> bool) (g : A -> value)
  (l : list A) :
  (forall x, f (g x) = true) -> filter f (map g l) = map g l.
Proof.
  intros H. induction l as [|x l IH]; simpl; [reflexivity|].
  rewrite H, IH. reflexivity.
Qed.

(** X10. Handing the aggregated list to [saveLocalVersions] writes under the
    local key the records of the local collection, with their tags, and none
    of the known records. *)
Theorem saveLocalVersions_of_aggregated_list
  (releases : list value) (ls store : Storage) :
  saveLocalVersions (fst (getElectronVersions releases ls)) store
  = Ok (setItem VersionKeys.local
          (JSON_stringify
             (VArr (map (tagged ElectronVersionSource.local
                                ElectronVersionState.ready)
                        (fst (getLocalVersions ls)))))
          store).
Proof.
  assert (E : fst (getElectronVersions releases ls) =
    map (tagged ElectronVersionSource.remote ElectronVersionState.unknown)
        (fst (getKnownVersions releases ls))
    ++ map (tagged ElectronVersionSource.local ElectronVersionState.ready)
           (fst (getLocalVersions ls))).
  { unfold getElectronVersions.
    pose proof (getVersions_known_keeps_store (fun _ => releases) ls) as Hs.
    fold (getKnownVersions releases ls) in Hs.
    destruct (getKnownVersions releases ls) as [knownVersions ls1].
    simpl in Hs. subst ls1.
    destruct (getLocalVersions ls) as [localVersions ls2]. reflexivity. }
  rewrite E. rewrite saveLocalVersions_filters.
  - rewrite filter_app.
    rewrite filter_map_none, filter_map_all; [reflexivity| |].
    + intros x. unfold persistable, provenance.
      rewrite field_tagged_source. reflexivity.
    + intros x. unfold persistable, provenance.
      rewrite field_tagged_source. reflexivity.
  - intros Hin. apply in_app_or in Hin.
    destruct Hin as [Hin | Hin]; apply in_map_iff in Hin;
      destruct Hin as [x [Hx _]]; discriminate Hx.
Qed.

(** ** More on the release channel *)

Lemma existsb_strict_eq_string (items : list value) (s : string) :
  existsb (fun x => strict_eq (Some x) (Some (VStr s))) items = true
  <-> In (VStr s) items.
Proof.
  rewrite existsb_exists. split.
  - intros [x [Hin Hx]]. apply strict_eq_string in Hx.
    injection Hx as ->. exact Hin.
  - intros Hin. exists (VStr s). split; [exact Hin|].
    apply strict_eq_string. reflexivity.
Qed.

(** X11. [getReleaseChannel] on records whose [version] is no string. It
    raises a TypeError on [null]. A record without a [version], or with a
    falsy one, is Stable. A truthy [version] that is neither a string nor an
    array (a number, [true], an object) makes it raise a TypeError. A
    [version] that is an array is searched for an element equal to the
    marker, not for a substring. *)
Theorem getReleaseChannel_other_versions :
  getReleaseChannel VNull = Throw TypeError
  /\ (forall input,
        input <> VNull -> to_boolean (field input "version") = false ->
        getReleaseChannel input = Ok stable)
  /\ (forall input v,
        field input "version" = Some v -> truthy v = true ->
        (forall s, v <> VStr s) -> (forall items, v <> VArr items) ->
        getReleaseChannel input = Throw TypeError)
  /\ (forall input items,
        field input "version" = Some (VArr items) ->
        (In (VStr "beta") items -> getReleaseChannel input = Ok beta)
        /\ (~ In (VStr "beta") items -> ~ In (VStr "nightly") items ->
            ~ In (VStr "unsupported") items ->
            getReleaseChannel input = Ok stable)).
Proof.
  split; [reflexivity|]. split; [|split].
  - intros input Hinput Hfalsy. unfold getReleaseChannel.
    rewrite (get_not_null input "version" Hinput). cbn [bind].
    rewrite Hfalsy. reflexivity.
  - intros input v Hv Htruthy Hstr Harr.
    assert (Hinput : input <> VNull) by (intros ->; discriminate Hv).
    unfold getReleaseChannel.
    rewrite (get_not_null input "version" Hinput). cbn [bind].
    rewrite Hv. cbn [to_boolean]. rewrite Htruthy.
    destruct v; try reflexivity.
    + contradiction (Hstr s). reflexivity.
    + contradiction (Harr items). reflexivity.
  - intros input items Hv.
    assert (Hinput : input <> VNull) by (intros ->; discriminate Hv).
    unfold getReleaseChannel.
    rewrite (get_not_null input "version" Hinput). cbn [bind].
    rewrite Hv. cbn [to_boolean truthy tag_includes bind]. split.
    + intros Hbeta. apply existsb_strict_eq_string in Hbeta.
      rewrite Hbeta. reflexivity.
    + intros Hbeta Hnightly Hunsupported.
      destruct (existsb _ items) eqn:B;
        [apply existsb_strict_eq_string in B; contradiction|].
      destruct (existsb (fun x => strict_eq (Some x) (Some (VStr "nightly")))
                        items) eqn:N;
        [apply existsb_strict_eq_string in N; contradiction|].
      destruct (existsb (fun x => strict_eq (Some x)
                                    (Some (VStr "unsupported")))
                        items) eqn:U;
        [apply existsb_strict_eq_string in U; contradiction|].
      reflexivity.
Qed.

Lemma getReleaseChannel_other_versions_witness :
  getReleaseChannel (VObj [("name", VStr "beta")]) = Ok stable
  /\ getReleaseChannel (VObj [("version", VNum 10)]) = Throw TypeError
  /\ getReleaseChannel (VObj [("version", VArr [VStr "1.0.0-beta.1"])])
     = Ok stable.
Proof.
  destruct getReleaseChannel_other_versions
    as [_ [Hfalsy [Hraise Harray]]].
  split; [|split].
  - apply Hfalsy; [discriminate | reflexivity].
  - apply (Hraise (VObj [("version", VNum 10)]) (VNum 10));
      [reflexivity | reflexivity | |]; discriminate.
  - apply (proj2 (Harray (VObj [("version", VArr [VStr "1.0.0-beta.1"])])
                         [VStr "1.0.0-beta.1"] eq_refl));
      intros [H | []]; discriminate H.
Defined.

(** ** More on the default version *)

Lemma find_truthy (f : value -> bool) (l : list value) :
  (forall x, In x l -> f x = true -> truthy x = true) ->
  to_boolean (List.find f l) = existsb f l.
Proof.
  induction l as [|x l IH]; intros H; simpl; [reflexivity|].
  destruct (f x) eqn:E.
  - simpl. apply H; [left; reflexivity | exact E].
  - apply IH. intros y Hy. apply H. right. exact Hy.
Qed.

Lemma listed_not_null (wanted : string) (knownVersions : list value) :
  ~ In VNull knownVersions ->
  listed wanted knownVersions = Ok (matches knownVersions wanted).
Proof.
  intros Hnull. unfold listed, matches.
  rewrite (find_total _
             (fun v => strict_eq (field v "version") (Some (VStr wanted)))).
  - simpl. f_equal. apply find_truthy. intros x _ Hx.
    apply strict_eq_string in Hx.
    destruct x; try discriminate Hx. reflexivity.
  - intros x Hx. rewrite (get_not_null x "version"); [reflexivity|].
    intros ->. exact (Hnull Hx).
Qed.

(** X12. With no remembered selection, or an empty one, [getDefaultVersion]
    looks at the first record only, whatever the list holds: it returns the
    [version] of the first record when that record and its [version] are
    truthy, and raises the corrupted-state error otherwise, the records
    behind the first being of no help. *)
Theorem getDefaultVersion_without_selection
  (normalizeVersion : string -> option string) (knownVersions : list value)
  (store : Storage) :
  is_set (version_item store) = false ->
  getDefaultVersion normalizeVersion knownVersions store =
    match knownVersions with
    | first :: _ =>
        if truthy first && to_boolean (field first "version")
        then Ok (field first "version") else Throw corrupted
    | [] => Throw corrupted
    end.
Proof.
  intros Hunset. unfold getDefaultVersion.
  assert (E : forall k, when_set (version_item store) k = Ok false
                        /\ when_set
                             match version_item store with
                             | Some s =>
                                 if s =? "" then version_item store
                                 else normalizeVersion s
                             | None => version_item store
                             end k = Ok false).
  { intros k. destruct (version_item store) as [s|] eqn:Hs; simpl in *.
    - destruct (s =? "") eqn:Es; [|discriminate Hunset].
      simpl. rewrite Es. split; reflexivity.
    - split; reflexivity. }
  rewrite (proj1 (E _)). cbn [bind]. rewrite (proj2 (E _)). cbn [bind].
  rewrite Hunset. cbn [andb].
  destruct knownVersions as [|first rest]; [reflexivity|].
  simpl nth_error. cbn [to_boolean].
  destruct (truthy first) eqn:T; [|reflexivity].
  simpl member.
  rewrite (get_not_null first "version" (truthy_not_null first T)).
  cbn [bind andb]. destruct (to_boolean (field first "version")); reflexivity.
Qed.

Lemma getDefaultVersion_without_selection_witness :
  getDefaultVersion strip_v [VObj []; version_record "1.0.0"] empty_store
  = Throw corrupted.
Proof.
  apply (getDefaultVersion_without_selection strip_v
           [VObj []; version_record "1.0.0"] empty_store).
  reflexivity.
Defined.

(** X13. With a remembered selection that matches no record, before or after
    normalization, [getDefaultVersion] returns the [version] of the first
    record without testing it, on any list without [null] whose first entry
    is truthy: when the first record has no [version] the result is
    [undefined], where the same list without a remembered selection raises
    the error. *)
Theorem getDefaultVersion_unmatched_selection
  (normalizeVersion : string -> option string) (first : value)
  (rest : list value) (store : Storage) (remembered : string) :
  version_item store = Some remembered ->
  remembered <> "" ->
  ~ In VNull (first :: rest) ->
  truthy first = true ->
  ~ has_record (first :: rest) remembered ->
  (forall normalized,
     normalizeVersion remembered = Some normalized ->
     ~ has_record (first :: rest) normalized) ->
  getDefaultVersion normalizeVersion (first :: rest) store
  = Ok (field first "version").
Proof.
  intros Hstore Hne Hnull Htruthy Hnot Hnorm.
  assert (Hno : forall s, ~ has_record (first :: rest) s ->
                          listed s (first :: rest) = Ok false).
  { intros s H. rewrite (listed_not_null s _ Hnull). f_equal.
    destruct (matches (first :: rest) s) eqn:E; [|reflexivity].
    apply matches_spec in E. contradiction. }
  apply String.eqb_neq in Hne.
  unfold getDefaultVersion. rewrite Hstore. cbn [when_set]. rewrite Hne.
  rewrite (Hno _ Hnot). cbn [bind].
  assert (Hhealed : when_set (normalizeVersion remembered)
                      (fun n => listed n (first :: rest)) = Ok false).
  { destruct (normalizeVersion remembered) as [n|]; [|reflexivity].
    simpl. destruct (n =? ""); [reflexivity|].
    apply Hno. apply Hnorm. reflexivity. }
  rewrite Hhealed. cbn [bind is_set]. rewrite Hne.
  simpl nth_error. cbn [to_boolean negb andb]. rewrite Htruthy.
  simpl member. apply get_not_null. apply truthy_not_null. exact Htruthy.
Qed.

Lemma getDefaultVersion_unmatched_selection_witness :
  getDefaultVersion strip_v [VObj [("name", VStr "One")]]
                    (mkStorage (Some "1.0.0") None None)
  = Ok undefined.
Proof.
  apply (getDefaultVersion_unmatched_selection strip_v
           (VObj [("name", VStr "One")]) []
           (mkStorage (Some "1.0.0") None None) "1.0.0").
  - reflexivity.
  - discriminate.
  - simpl. intros [H | H]; [discriminate H | exact H].
  - reflexivity.
  - intros [record [[<- | []] H]]. discriminate H.
  - intros normalized _ [record [[<- | []] H]]. discriminate H.
Defined.

Lemma find_app_refused (callback : value -> result bool)
  (before after : list value) :
  (forall x, In x before -> callback x = Ok false) ->
  find callback (before ++ after) = find callback after.
Proof.
  induction before as [|x l IH]; intros H; [reflexivity|].
  simpl. rewrite (H x (or_introl eq_refl)). simpl.
  apply IH. intros y Hy. apply H. right. exact Hy.
Qed.

(** X14. With a remembered selection, [getDefaultVersion] raises a TypeError
    and not the corrupted-state error when the search through the records
    comes to a [null] before it comes to a match. *)
Theorem getDefaultVersion_null_record
  (normalizeVersion : string -> option string) (before rest : list value)
  (store : Storage) (remembered : string) :
  version_item store = Some remembered ->
  remembered <> "" ->
  ~ In VNull before ->
  ~ has_record before remembered ->
  getDefaultVersion normalizeVersion (before ++ VNull :: rest) store
  = Throw TypeError.
Proof.
  intros Hstore Hne Hnull Hnot. apply String.eqb_neq in Hne.
  unfold getDefaultVersion. rewrite Hstore. cbn [when_set]. rewrite Hne.
  unfold listed at 1. rewrite find_app_refused; [reflexivity|].
  intros x Hx. rewrite (get_not_null x "version");
    [|intros ->; exact (Hnull Hx)].
  simpl. f_equal.
  destruct (strict_eq (field x "version") (Some (VStr remembered))) eqn:E;
    [|reflexivity].
  apply strict_eq_string in E. contradiction Hnot. exists x.
  split; assumption.
Qed.

Lemma getDefaultVersion_null_record_witness :
  getDefaultVersion strip_v [version_record "2.0.0"; VNull;
                             version_record "1.0.0"]
                    (mkStorage (Some "1.0.0") None None)
  = Throw TypeError.
Proof.
  apply (getDefaultVersion_null_record strip_v [version_record "2.0.0"]
           [version_record "1.0.0"] (mkStorage (Some "1.0.0") None None)
           "1.0.0").
  - reflexivity.
  - discriminate.
  - simpl. intros [H | H]; [discriminate H | exact H].
  - intros [record [[<- | []] H]]. discriminate H.
Defined.

(** ** More on adding a local version *)

(** What [addLocalVersion] returns and writes for an object. *)
Lemma addLocalVersion_object (record : list (string * value)) (ls : Storage) :
  let input := VObj record in
  let versions := fst (getLocalVersions ls) in
  let result := if existsb (shares_localPath input) versions
                then versions else versions ++ [input] in
  addLocalVersion input ls
  = (Ok result,
     setItem VersionKeys.local
             (JSON_stringify (VArr (filter persistable result))) ls).
Proof.
  intros input versions result.
  pose proof (getLocalVersions_valid ls) as [Hvalid Hstore].
  fold versions in Hvalid.
  assert (Hfind := find_same_localPath record _ Hvalid). fold input in Hfind.
  assert (Hnull : ~ In VNull versions)
    by (apply has_version_not_null; exact Hvalid).
  assert (Hfound : to_boolean (List.find (shares_localPath input) versions)
                   = existsb (shares_localPath input) versions).
  { apply find_truthy. intros x Hx _. apply has_version_truthy.
    rewrite Forall_forall in Hvalid. exact (Hvalid x Hx). }
  unfold addLocalVersion. subst result versions.
  destruct (getLocalVersions ls) as [versions ls1]. cbn [fst snd] in *.
  rewrite Hfind, Hfound.
  destruct (existsb (shares_localPath input) versions); cbn [negb].
  - rewrite (saveLocalVersions_filters versions ls1 Hnull).
    unfold saveVersions. rewrite Hstore. reflexivity.
  - rewrite saveLocalVersions_filters.
    + unfold saveVersions. rewrite Hstore. reflexivity.
    + intros Hin. apply in_app_or in Hin. destruct Hin as [Hin | Hin].
      * exact (Hnull Hin).
      * destruct Hin as [Hin | []]. discriminate Hin.
Qed.

Lemma added_list_valid (record : list (string * value))
  (versions : list value) :
  has_version (VObj record) = true ->
  persistable (VObj record) = true ->
  Forall (fun v => persistable v = true) versions ->
  Forall (fun v => has_version v = true) versions ->
  let result := if existsb (shares_localPath (VObj record)) versions
                then versions else versions ++ [VObj record] in
  Forall (fun v => persistable v = true) result
  /\ Forall (fun v => has_version v = true) result.
Proof.
  intros Hversion Hinput Hstored Hvalid result. subst result.
  destruct (existsb _ versions); [split; assumption|].
  split; apply Forall_app; split; try assumption;
    constructor; try assumption; constructor.
Qed.

(** X15. After [addLocalVersion] of a record with a truthy [version], on a
    collection without records tagged otherwise than [local], the next read
    of the local collection returns the very list [addLocalVersion]
    returned, and writes nothing. *)
Theorem addLocalVersion_then_getLocalVersions
  (record : list (string * value)) (ls : Storage) :
  has_version (VObj record) = true ->
  persistable (VObj record) = true ->
  Forall (fun v => persistable v = true) (fst (getLocalVersions ls)) ->
  exists result,
    fst (addLocalVersion (VObj record) ls) = Ok result
    /\ getLocalVersions (snd (addLocalVersion (VObj record) ls))
       = (result, snd (addLocalVersion (VObj record) ls)).
Proof.
  intros Hversion Hinput Hstored.
  rewrite (addLocalVersion_object record ls). cbn [fst snd].
  pose proof (getLocalVersions_valid ls) as [Hvalid _].
  destruct (added_list_valid record _ Hversion Hinput Hstored Hvalid)
    as [Hpersistable Hversions].
  eexists. split; [reflexivity|].
  rewrite (filter_all _ _ Hpersistable).
  apply getVersions_valid; [reflexivity | exact Hversions].
Qed.

Lemma addLocalVersion_then_getLocalVersions_witness :
  exists result,
    fst (addLocalVersion (local_record "2.0.0" "/y")
                         (store_of [] [local_record "1.0.0" "/x"]))
    = Ok result
    /\ getLocalVersions
         (snd (addLocalVersion (local_record "2.0.0" "/y")
                               (store_of [] [local_record "1.0.0" "/x"])))
       = (result,
          snd (addLocalVersion (local_record "2.0.0" "/y")
                               (store_of [] [local_record "1.0.0" "/x"]))).
Proof.
  apply (addLocalVersion_then_getLocalVersions
           [("version", VStr "2.0.0"); ("localPath", VStr "/y")]
           (store_of [] [local_record "1.0.0" "/x"])).
  - reflexivity.
  - reflexivity.
  - repeat constructor.
Defined.

(** X16. Adding the same record twice is adding it once, for a record with a
    truthy [version] whose [localPath] is identical to itself for [===] (a
    string, a number, a boolean, [null] or none at all) on a collection
    without records tagged otherwise than [local]: the second call returns
    the list the first returned and leaves the store as the first left
    it. *)
Theorem addLocalVersion_twice
  (record : list (string * value)) (ls : Storage) :
  has_version (VObj record) = true ->
  persistable (VObj record) = true ->
  shares_localPath (VObj record) (VObj record) = true ->
  Forall (fun v => persistable v = true) (fst (getLocalVersions ls)) ->
  addLocalVersion (VObj record) (snd (addLocalVersion (VObj record) ls))
  = addLocalVersion (VObj record) ls.
Proof.
  intros Hversion Hinput Hself Hstored.
  pose proof (getLocalVersions_valid ls) as [Hvalid _].
  destruct (added_list_valid record _ Hversion Hinput Hstored Hvalid)
    as [Hpersistable Hversions].
  rewrite (addLocalVersion_object record ls). cbn [fst snd].
  set (result := if existsb (shares_localPath (VObj record))
                            (fst (getLocalVersions ls))
                 then fst (getLocalVersions ls)
                 else fst (getLocalVersions ls) ++ [VObj record]) in *.
  rewrite (filter_all _ _ Hpersistable).
  set (saved := setItem VersionKeys.local (JSON_stringify (VArr result)) ls).
  assert (Hread : getLocalVersions saved = (result, saved))
    by (apply getVersions_valid; [reflexivity | exact Hversions]).
  rewrite (addLocalVersion_object record saved). rewrite Hread. cbn [fst].
  assert (Hshared : existsb (shares_localPath (VObj record)) result = true).
  { subst result.
    destruct (existsb (shares_localPath (VObj record))
                      (fst (getLocalVersions ls))) eqn:E; [exact E|].
    rewrite existsb_app, E. simpl. rewrite Hself. reflexivity. }
  rewrite Hshared, (filter_all _ _ Hpersistable). reflexivity.
Qed.

Lemma addLocalVersion_twice_witness :
  addLocalVersion (local_record "1.0.0" "/x")
    (snd (addLocalVersion (local_record "1.0.0" "/x") empty_store))
  = addLocalVersion (local_record "1.0.0" "/x") empty_store.
Proof.
  apply (addLocalVersion_twice
           [("version", VStr "1.0.0"); ("localPath", VStr "/x")]
           empty_store).
  - reflexivity.
  - reflexivity.
  - reflexivity.
  - constructor.
Defined.

(** X17. [addLocalVersion] of [null] raises a TypeError, whatever the store
    holds, and adds nothing: the store is left as the read of the local
    collection left it. *)
Theorem addLocalVersion_null (ls : Storage) :
  addLocalVersion VNull ls = (Throw TypeError, snd (getLocalVersions ls)).
Proof.
  pose proof (getLocalVersions_valid ls) as [Hvalid _].
  unfold addLocalVersion.
  destruct (getLocalVersions ls) as [versions ls1]. cbn [fst snd] in *.
  destruct Hvalid as [|x l Hx _]; [reflexivity|].
  simpl. unfold same_localPath.
  rewrite (get_not_null x "localPath"
             (truthy_not_null x (has_version_truthy x Hx))).
  reflexivity.
Qed.

(** X18. The operations on the local collection and on the aggregated list
    never write the remembered selection nor the known collection: after
    [getLocalVersions], [addLocalVersion] of any value and
    [getElectronVersions], these two items are what they were. *)
Theorem local_operations_keep_other_items
  (releases : list value) (input : value) (ls : Storage) :
  let unchanged (after : Storage) :=
    version_item after = version_item ls
    /\ known_item after = known_item ls in
  unchanged (snd (getLocalVersions ls))
  /\ unchanged (snd (addLocalVersion input ls))
  /\ unchanged (snd (getElectronVersions releases ls)).
Proof.
  intros unchanged.
  assert (Hlocal : unchanged (snd (getLocalVersions ls))).
  { pose proof (proj2 (getLocalVersions_valid ls) Empty) as H. split.
    - apply (f_equal version_item) in H. exact H.
    - apply (f_equal known_item) in H. exact H. }
  split; [exact Hlocal|]. split.
  - unfold addLocalVersion.
    destruct (getLocalVersions ls) as [versions ls1]. cbn [snd] in Hlocal.
    destruct (find (same_localPath input) versions) as [found|];
      [|exact Hlocal].
    destruct (saveLocalVersions _ ls1) as [ls2|] eqn:E; [|exact Hlocal].
    unfold saveLocalVersions in E.
    destruct (filter_cb _ _) as [kept|]; [|discriminate E].
    injection E as <-. exact Hlocal.
  - unfold getElectronVersions.
    pose proof (getVersions_known_keeps_store (fun _ => releases) ls) as Hs.
    fold (getKnownVersions releases ls) in Hs.
    destruct (getKnownVersions releases ls) as [knownVersions ls1].
    simpl in Hs. subst ls1.
    destruct (getLocalVersions ls) as [localVersions ls2]. exact Hlocal.
Qed.

(** ** More on the aggregated list and the default version *)

Lemma getElectronVersions_pair (releases : list value) (ls : Storage) :
  getElectronVersions releases ls
  = (map (tagged ElectronVersionSource.remote ElectronVersionState.unknown)
         (fst (getKnownVersions releases ls))
     ++ map (tagged ElectronVersionSource.local ElectronVersionState.ready)
            (fst (getLocalVersions ls)),
     snd (getLocalVersions ls)).
Proof.
  unfold getElectronVersions.
  pose proof (getVersions_known_keeps_store (fun _ => releases) ls) as Hs.
  fold (getKnownVersions releases ls) in Hs.
  destruct (getKnownVersions releases ls) as [knownVersions ls1].
  simpl in Hs. subst ls1.
  destruct (getLocalVersions ls) as [localVersions ls2]. reflexivity.
Qed.

Lemma getKnownVersions_valid (releases : list value) (ls : Storage) :
  Forall (fun v => has_version v = true) releases ->
  Forall (fun v => has_version v = true) (fst (getKnownVersions releases ls)).
Proof.
  intros Hreleases.
  unfold getKnownVersions, getVersions, getVersions_try. simpl.
  destruct (known_item ls) as [[| |[]]|]; simpl; try exact Hreleases.
  destruct (isExpectedFormat items) as [[]|] eqn:E; simpl;
    try exact Hreleases.
  apply isExpectedFormat_true. exact E.
Qed.

(** The read under the known key only looks at the known item. *)
Lemma getKnownVersions_same_item (releases : list value) (ls ls' : Storage) :
  known_item ls' = known_item ls ->
  fst (getKnownVersions releases ls') = fst (getKnownVersions releases ls).
Proof.
  intros H. unfold getKnownVersions, getVersions, getVersions_try. simpl.
  rewrite H.
  destruct (known_item ls) as [[| |[]]|]; simpl; try reflexivity.
  destruct (isExpectedFormat items) as [[]|]; reflexivity.
Qed.

Lemma aggregated_valid (releases : list value) (ls : Storage) :
  Forall (fun v => has_version v = true) releases ->
  Forall (fun v => has_version v = true)
         (fst (getElectronVersions releases ls)).
Proof.
  intros Hreleases. rewrite getElectronVersions_pair. cbn [fst].
  apply Forall_app. split; apply Forall_forall; intros r Hr;
    apply in_map_iff in Hr; destruct Hr as [v [<- Hv]];
    apply tagged_valid.
  - pose proof (getKnownVersions_valid releases ls Hreleases) as H.
    rewrite Forall_forall in H. exact (H v Hv).
  - pose proof (proj1 (getLocalVersions_valid ls)) as H.
    rewrite Forall_forall in H. exact (H v Hv).
Qed.

(** X19. When the bundled list holds valid records, every record of the
    aggregated list is an object with the truthy [version] of the record it
    was made from and one of the two provenance tags: the aggregated list
    passes the validator, whatever the store holds. *)
Theorem getElectronVersions_valid (releases : list value) (ls : Storage) :
  Forall (fun v => has_version v = true) releases ->
  isExpectedFormat (fst (getElectronVersions releases ls)) = Ok true
  /\ forall r, In r (fst (getElectronVersions releases ls)) ->
       has_version r = true
       /\ (provenance r = Some ElectronVersionSource.remote
           \/ provenance r = Some ElectronVersionSource.local)
       /\ exists v,
            (In v (fst (getKnownVersions releases ls))
             \/ In v (fst (getLocalVersions ls)))
            /\ field r "version" = field v "version".
Proof.
  intros Hreleases.
  pose proof (aggregated_valid releases ls Hreleases) as Hvalid.
  split; [apply isExpectedFormat_true; exact Hvalid|].
  intros r Hr. split; [rewrite Forall_forall in Hvalid; exact (Hvalid r Hr)|].
  rewrite getElectronVersions_pair in Hr. cbn [fst] in Hr.
  assert (Hversion : forall source state v,
            has_version v = true ->
            field (tagged source state v) "version" = field v "version").
  { intros source state v Hv.
    destruct (field_truthy_object v "version" Hv) as [props ->].
    apply field_tagged_other; discriminate. }
  apply in_app_or in Hr. destruct Hr as [Hr | Hr];
    apply in_map_iff in Hr; destruct Hr as [v [<- Hv]].
  - split; [left; apply field_tagged_source|].
    exists v. split; [left; exact Hv|]. apply Hversion.
    pose proof (getKnownVersions_valid releases ls Hreleases) as H.
    rewrite Forall_forall in H. exact (H v Hv).
  - split; [right; apply field_tagged_source|].
    exists v. split; [right; exact Hv|]. apply Hversion.
    pose proof (proj1 (getLocalVersions_valid ls)) as H.
    rewrite Forall_forall in H. exact (H v Hv).
Qed.

Lemma getElectronVersions_valid_witness :
  isExpectedFormat
    (fst (getElectronVersions [version_record "9.0.0"]
            (store_of [VObj []] [legacy_record "v1.0.0" "One" "/a"])))
  = Ok true.
Proof.
  apply (proj1 (getElectronVersions_valid [version_record "9.0.0"]
                  (store_of [VObj []] [legacy_record "v1.0.0" "One" "/a"])
                  ltac:(repeat constructor))).
Defined.

(** X20. Building the aggregated list a second time gives the list and the
    store of the first time: what the first call repaired in the local
    collection stays repaired, and nothing else is written. *)
Theorem getElectronVersions_twice (releases : list value) (ls : Storage) :
  getElectronVersions releases (snd (getElectronVersions releases ls))
  = getElectronVersions releases ls.
Proof.
  rewrite (getElectronVersions_pair releases ls). cbn [snd].
  rewrite (getElectronVersions_pair releases (snd (getLocalVersions ls))).
  rewrite getLocalVersions_repaired.
  rewrite (getKnownVersions_same_item releases ls); [reflexivity|].
  pose proof (proj2 (getLocalVersions_valid ls) Empty) as H.
  apply (f_equal known_item) in H. exact H.
Qed.

(** X21. On the aggregated list [getDefaultVersion] fails in one case only,
    when the bundled list holds valid records: it raises the corrupted-state
    error when the known and the local collection are both empty, and
    returns a truthy version otherwise, whatever is remembered. *)
Theorem getDefaultVersion_of_aggregated_list
  (normalizeVersion : string -> option string) (releases : list value)
  (ls store : Storage) :
  Forall (fun v => has_version v = true) releases ->
  let aggregated := fst (getElectronVersions releases ls) in
  (fst (getKnownVersions releases ls) = [] ->
   fst (getLocalVersions ls) = [] ->
   getDefaultVersion normalizeVersion aggregated store = Throw corrupted)
  /\ (fst (getKnownVersions releases ls) <> []
      \/ fst (getLocalVersions ls) <> [] ->
      exists v,
        getDefaultVersion normalizeVersion aggregated store = Ok (Some v)
        /\ truthy v = true).
Proof.
  intros Hreleases aggregated.
  pose proof (aggregated_valid releases ls Hreleases) as Hvalid.
  fold aggregated in Hvalid.
  rewrite (getDefaultVersion_valid normalizeVersion aggregated store Hvalid).
  assert (Hagg : aggregated
    = map (tagged ElectronVersionSource.remote ElectronVersionState.unknown)
          (fst (getKnownVersions releases ls))
      ++ map (tagged ElectronVersionSource.local ElectronVersionState.ready)
             (fst (getLocalVersions ls))).
  { unfold aggregated. rewrite getElectronVersions_pair. reflexivity. }
  split.
  - intros Hknown Hlocal. rewrite Hknown, Hlocal in Hagg. simpl in Hagg.
    rewrite Hagg. simpl.
    destruct (version_item store) as [s|]; [|reflexivity].
    destruct (s =? ""); [reflexivity|].
    destruct (normalizeVersion s) as [n|]; [|reflexivity].
    rewrite andb_false_r. reflexivity.
  - intros Hne.
    assert (Hfirst : exists v, first_or_corrupted aggregated = Ok (Some v)
                               /\ truthy v = true).
    { destruct aggregated as [|first rest].
      - symmetry in Hagg. apply app_eq_nil in Hagg.
        destruct Hagg as [Hk Hl].
        apply map_eq_nil in Hk. apply map_eq_nil in Hl.
        destruct Hne as [H | H]; contradiction.
      - inversion Hvalid as [|? ? Hfirst _]; subst. simpl.
        unfold has_version in Hfirst.
        destruct (field first "version") as [v|]; [|discriminate Hfirst].
        exists v. split; [reflexivity | exact Hfirst]. }
    assert (Hmatch : forall s, matches aggregated s = true ->
                               truthy (VStr s) = true).
    { intros s Hs. apply matches_spec in Hs.
      destruct (String.eqb_spec s "") as [-> | Hs'].
      - contradiction (has_record_not_empty aggregated Hvalid Hs).
      - simpl. apply String.eqb_neq in Hs'. rewrite Hs'. reflexivity. }
    destruct (version_item store) as [s|]; [|exact Hfirst].
    destruct (s =? ""); [exact Hfirst|].
    destruct (matches aggregated s) eqn:Ms;
      [exists (VStr s); split; [reflexivity | apply Hmatch; exact Ms]|].
    destruct (normalizeVersion s) as [n|]; [|exact Hfirst].
    destruct (negb (n =? "") && matches aggregated n) eqn:Mn;
      [|exact Hfirst].
    apply andb_true_iff in Mn. destruct Mn as [_ Mn].
    exists (VStr n). split; [reflexivity | apply Hmatch; exact Mn].
Qed.

Lemma getDefaultVersion_of_aggregated_list_witness :
  exists v,
    getDefaultVersion strip_v
      (fst (getElectronVersions [version_record "9.0.0"] empty_store))
      empty_store = Ok (Some v)
    /\ truthy v = true.
Proof.
  apply (proj2 (getDefaultVersion_of_aggregated_list strip_v
                  [version_record "9.0.0"] empty_store empty_store
                  ltac:(repeat constructor))).
  left. discriminate.
Defined.

(** ** Fetching the versions *)

Lemma isExpectedFormat_of_keys (keys : list string) :
  isExpectedFormat (map (fun version => VObj [("version", VStr version)]) keys)
  = Ok (forallb (fun key => negb (key =? "")) keys).
Proof.
  rewrite isExpectedFormat_not_null.
  - f_equal. induction keys as [|key keys IH]; [reflexivity|].
    simpl. rewrite IH. reflexivity.
  - intros Hin. apply in_map_iff in Hin. destruct Hin as [key [H _]].
    discriminate H.
Qed.

(** Whether [fetchVersions] writes the names it was given: there is one at
    least and none is the empty string. *)
Lemma fetchVersions_keys (data versions : value) (ls : Storage) :
  field data "versions" = Some versions ->
  versions <> VNull ->
  let keys := map fst (own_props versions) in
  let output := map version_record keys in
  fetchVersions (Ok data) ls
  = (Ok output,
     if negb (Nat.eqb (List.length keys) 0)
        && forallb (fun key => negb (key =? "")) keys
     then saveKnownVersions output ls else ls).
Proof.
  intros Hversions Hnull keys output.
  assert (Hdata : data <> VNull) by (intros ->; discriminate Hversions).
  unfold fetchVersions. cbn [bind].
  rewrite (get_not_null data "versions" Hdata). cbn [bind].
  rewrite Hversions.
  assert (Hkeys : Object_keys (Some versions) = Ok keys).
  { destruct versions; try reflexivity. contradiction Hnull. reflexivity. }
  rewrite Hkeys. rewrite isExpectedFormat_of_keys, List.length_map.
  fold keys. change (map (fun version => VObj [("version", VStr version)]) keys)
    with output.
  destruct keys as [|key keys']; [reflexivity|].
  simpl Nat.ltb. cbn [List.length Nat.eqb negb andb].
  destruct (forallb _ (key :: keys')); reflexivity.
Qed.

(** X22. [fetchVersions] settles as follows. A rejected fetch or body is
    passed on and nothing is written. A body that is [null], or has no
    [versions], or has [null] there, makes it raise a TypeError and nothing
    is written. Otherwise it returns one record [{version}] per name of
    [versions], in their order, and writes them as the known collection
    exactly when there is a name and none of the names is empty; the local
    collection and the remembered selection are never written. *)
Theorem fetchVersions_outcome (ls : Storage) :
  (forall e, fetchVersions (Throw e) ls = (Throw e, ls))
  /\ (forall data,
        data = VNull \/ field data "versions" = None
        \/ field data "versions" = Some VNull ->
        fetchVersions (Ok data) ls = (Throw TypeError, ls))
  /\ (forall data versions,
        field data "versions" = Some versions -> versions <> VNull ->
        let keys := map fst (own_props versions) in
        let output := map version_record keys in
        fst (fetchVersions (Ok data) ls) = Ok output
        /\ (keys <> [] -> ~ In "" keys ->
            snd (fetchVersions (Ok data) ls) = saveKnownVersions output ls)
        /\ (keys = [] \/ In "" keys ->
            snd (fetchVersions (Ok data) ls) = ls))
  /\ (forall response,
        local_item (snd (fetchVersions response ls)) = local_item ls
        /\ version_item (snd (fetchVersions response ls)) = version_item ls).
Proof.
  split; [reflexivity|]. split; [|split].
  - intros data [-> | [H | H]]; [reflexivity| |].
    + destruct data; try reflexivity; simpl in H;
        unfold fetchVersions; simpl; rewrite H; reflexivity.
    + destruct data; try discriminate H; simpl in H.
      unfold fetchVersions. simpl. rewrite H. reflexivity.
  - intros data versions Hversions Hnull keys output.
    rewrite (fetchVersions_keys data versions ls Hversions Hnull).
    fold keys. fold output. cbn [fst snd].
    split; [reflexivity|]. split.
    + intros Hne Hnone.
      assert (E : forallb (fun key => negb (key =? "")) keys = true).
      { apply forallb_forall. intros key Hkey.
        destruct (String.eqb_spec key "") as [-> | _];
          [contradiction | reflexivity]. }
      rewrite E. destruct keys; [contradiction Hne; reflexivity|].
      reflexivity.
    + intros [-> | Hempty]; [reflexivity|].
      assert (E : forallb (fun key => negb (key =? "")) keys = false).
      { destruct (forallb _ keys) eqn:F; [|reflexivity].
        rewrite forallb_forall in F. specialize (F "" Hempty).
        discriminate F. }
      rewrite E, andb_false_r. reflexivity.
  - intros response. unfold fetchVersions.
    destruct (data <- response;; versions <- get data "versions";;
              Object_keys versions) as [keys|]; [|split; reflexivity].
    cbn zeta.
    destruct (if (0 <? _)%nat then _ else _) as [[]|];
      split; reflexivity.
Qed.

Lemma fetchVersions_outcome_witness :
  let data := VObj [("versions", VObj [("1.0.0", VObj []);
                                       ("2.0.0", VObj [])])] in
  fetchVersions (Ok data) empty_store
  = (Ok [version_record "1.0.0"; version_record "2.0.0"],
     saveKnownVersions [version_record "1.0.0"; version_record "2.0.0"]
                       empty_store)
  /\ fetchVersions (Ok (VObj [("error", VStr "not found")])) empty_store
     = (Throw TypeError, empty_store).
Proof.
  intros data.
  destruct (fetchVersions_outcome empty_store) as [_ [Hraise [Hkeys _]]].
  destruct (Hkeys data (VObj [("1.0.0", VObj []); ("2.0.0", VObj [])])
                  eq_refl ltac:(discriminate)) as [Hfst [Hsaved _]].
  split.
  - apply injective_projections; [exact Hfst|].
    apply Hsaved; [discriminate|].
    simpl. intros [H | [H | H]]; try discriminate H. exact H.
  - apply Hraise. right. left. reflexivity.
Defined.

(** X23. After a fetch that wrote, the known collection is the fetched list
    and nothing of the former one: the next read under the known key
    returns the fetched records, and not the bundled list. After a fetch
    that did not write, the read returns what it returned before. *)
Theorem fetchVersions_then_getKnownVersions
  (releases : list value) (response : result value) (ls : Storage) :
  (forall data versions,
     response = Ok data ->
     field data "versions" = Some versions -> versions <> VNull ->
     let keys := map fst (own_props versions) in
     keys <> [] -> ~ In "" keys ->
     getKnownVersions releases (snd (fetchVersions response ls))
     = (map version_record keys, snd (fetchVersions response ls)))
  /\ (snd (fetchVersions response ls) = ls ->
      getKnownVersions releases (snd (fetchVersions response ls))
      = getKnownVersions releases ls).
Proof.
  split; [|intros H; rewrite H; reflexivity].
  intros data versions -> Hversions Hnull keys Hne Hnone.
  rewrite (fetchVersions_keys data versions ls Hversions Hnull).
  fold keys.
  assert (E : forallb (fun key => negb (key =? "")) keys = true).
  { apply forallb_forall. intros key Hkey.
    destruct (String.eqb_spec key "") as [-> | _];
      [contradiction | reflexivity]. }
  rewrite E. destruct keys as [|key keys'] eqn:K;
    [contradiction Hne; reflexivity|].
  cbn [List.length Nat.eqb negb andb snd].
  apply getVersions_valid; [reflexivity|].
  apply isExpectedFormat_true.
  change (map version_record (key :: keys'))
    with (map (fun version => VObj [("version", VStr version)])
              (key :: keys')).
  rewrite isExpectedFormat_of_keys, E. reflexivity.
Qed.

Lemma fetchVersions_then_getKnownVersions_witness :
  let response :=
    Ok (VObj [("versions", VObj [("1.0.0", VObj [])])]) in
  let ls := store_of [version_record "0.9.0"] [] in
  getKnownVersions [version_record "9.0.0"] (snd (fetchVersions response ls))
  = ([version_record "1.0.0"], snd (fetchVersions response ls)).
Proof.
  intros response ls.
  apply (proj1 (fetchVersions_then_getKnownVersions
                  [version_record "9.0.0"] response ls)
               (VObj [("versions", VObj [("1.0.0", VObj [])])])
               (VObj [("1.0.0", VObj [])]) eq_refl eq_refl).
  - discriminate.
  - discriminate.
  - simpl. intros [H | H]; [discriminate H | exact H].
Defined.

(** The list read under the local key only depends on the local item. *)
Lemma getLocalVersions_same_item (ls ls' : Storage) :
  local_item ls' = local_item ls ->
  fst (getLocalVersions ls') = fst (getLocalVersions ls).
Proof.
  intros H. unfold getLocalVersions, getVersions, getVersions_try. simpl.
  rewrite H.
  destruct (local_item ls) as [[| |[]]|]; simpl; try reflexivity.
  destruct (isExpectedFormat items) as [[]|]; simpl; try reflexivity.
  rewrite !saveLocalVersions_migrated. reflexivity.
Qed.

(** X24. [getUpdatedElectronVersions] never fails. When the fetch is
    rejected, or raises, or writes nothing, it returns what
    [getElectronVersions] returns on the store as it is; when the fetch
    wrote, the known part of the list is the fetched records, tagged, and
    the local part is the local collection as before. *)
Theorem getUpdatedElectronVersions_outcome
  (releases : list value) (response : result value) (ls : Storage) :
  (snd (fetchVersions response ls) = ls ->
   getUpdatedElectronVersions releases response ls
   = getElectronVersions releases ls)
  /\ (forall data versions,
        response = Ok data ->
        field data "versions" = Some versions -> versions <> VNull ->
        let keys := map fst (own_props versions) in
        keys <> [] -> ~ In "" keys ->
        fst (getUpdatedElectronVersions releases response ls)
        = map (tagged ElectronVersionSource.remote
                      ElectronVersionState.unknown)
              (map version_record keys)
          ++ map (tagged ElectronVersionSource.local
                         ElectronVersionState.ready)
                 (fst (getLocalVersions ls))).
Proof.
  split.
  - intros H. unfold getUpdatedElectronVersions.
    destruct (fetchVersions response ls) as [outcome ls1].
    simpl in H. subst ls1. reflexivity.
  - intros data versions -> Hversions Hnull keys Hne Hnone.
    unfold getUpdatedElectronVersions.
    rewrite (fetchVersions_keys data versions ls Hversions Hnull).
    fold keys.
    assert (E : forallb (fun key => negb (key =? "")) keys = true).
    { apply forallb_forall. intros key Hkey.
      destruct (String.eqb_spec key "") as [-> | _];
        [contradiction | reflexivity]. }
    rewrite E. destruct keys as [|key keys'] eqn:K;
      [contradiction Hne; reflexivity|].
    cbn [List.length Nat.eqb negb andb].
    set (output := map version_record (key :: keys')).
    rewrite getElectronVersions_pair. cbn [fst].
    rewrite (getLocalVersions_same_item ls (saveKnownVersions output ls))
      by reflexivity.
    assert (Hknown : getKnownVersions releases (saveKnownVersions output ls)
                     = (output, saveKnownVersions output ls)).
    { apply getVersions_valid; [reflexivity|].
      apply isExpectedFormat_true. subst output.
      change (map version_record (key :: keys'))
        with (map (fun version => VObj [("version", VStr version)])
                  (key :: keys')).
      rewrite isExpectedFormat_of_keys, E. reflexivity. }
    rewrite Hknown. reflexivity.
Qed.

Lemma getUpdatedElectronVersions_outcome_witness :
  getUpdatedElectronVersions [version_record "9.0.0"]
    (Throw (Error "Failed to fetch"))
    (store_of [] [local_record "1.0.0" "/x"])
  = getElectronVersions [version_record "9.0.0"]
      (store_of [] [local_record "1.0.0" "/x"]).
Proof.
  apply (proj1 (getUpdatedElectronVersions_outcome
                  [version_record "9.0.0"] (Throw (Error "Failed to fetch"))
                  (store_of [] [local_record "1.0.0" "/x"]))).
  reflexivity.
Defined.
